(** * AWS Signature Version 4 signing (trevorhanus/aws-sigv4)

    A shallow embedding of [src/sigv4.ts] and [src/utils.ts] and the
    verification of the signing pipeline: canonical request, string to sign,
    signing key, signature, authorization header and the orchestrator
    [buildSigningParts] with its mutation of the caller's config.

    JavaScript strings are sequences of UTF-16 code units; a JavaScript
    object used as a string-keyed map is an association list in the order of
    [Object.keys]; thrown exceptions are results; the mutated config object is
    threaded as explicit state.  SHA-256, HMAC-SHA256 and hex encoding
    (crypto-js), [url.parse], the clock, [JSON.stringify] and the Unicode case
    mappings are interfaces the development is parametric in. *)

From Stdlib Require Import List NArith ZArith Bool Lia String Ascii.
From Stdlib Require Import Sorting.Sorted Sorting.Permutation.
Import ListNotations.

Set Implicit Arguments.

(* ================================================================== *)
(** * JavaScript values *)
(* ================================================================== *)

(** A string is its sequence of UTF-16 code units, each below [65536]. *)
Definition code_unit := N.
Definition jsstring := list code_unit.

(** A code-unit string from an ASCII literal. *)
Definition js (s : string) : jsstring :=
  map N_of_ascii (list_ascii_of_string s).

Definition LF : jsstring := [10%N].

(** A value of declared type [T] at run time: [undefined], [null] or a [T]. *)
Inductive maybe (A : Type) : Type :=
| Undefined
| Null
| Val (a : A).
Arguments Undefined {A}.
Arguments Null {A}.
Arguments Val {A} a.

(** [typeof x === 'undefined'] *)
Definition is_undefined {A} (x : maybe A) : bool :=
  match x with Undefined => true | _ => false end.

(** [x == null] *)
Definition is_nullish {A} (x : maybe A) : bool :=
  match x with Val _ => false | _ => true end.

(** [ToString] on a string, [null] or [undefined], as string concatenation
    and template literals apply it. *)
Definition ToString (x : maybe jsstring) : jsstring :=
  match x with
  | Undefined => js "undefined"
  | Null => js "null"
  | Val s => s
  end.

(** What a call throws: a bare string ([throw `...`]), a [TypeError] (a method
    call on [null]/[undefined], [url.parse] of a non-string) or a [URIError]
    ([encodeURI]/[encodeURIComponent] on a lone surrogate). *)
Inductive exn : Type :=
| ThrownString (msg : jsstring)
| TypeError
| URIError.

Inductive result (A : Type) : Type :=
| Ok (a : A)
| Throw (e : exn).
Arguments Ok {A} a.
Arguments Throw {A} e.

Definition rbind {A B} (r : result A) (k : A -> result B) : result B :=
  match r with
  | Ok a => k a
  | Throw e => Throw e
  end.

Definition rmap {A B} (f : A -> B) (r : result A) : result B :=
  rbind r (fun a => Ok (f a)).

(** [xs.map(f)] where [f] may throw: the first throw wins. *)
Fixpoint map_result {A B} (f : A -> result B) (xs : list A) : result (list B) :=
  match xs with
  | [] => Ok []
  | x :: r => rbind (f x) (fun y => rbind (map_result f r) (fun ys => Ok (y :: ys)))
  end.

(* ------------------------------------------------------------------ *)
(** ** String comparison *)

(** [a === b] on strings. *)
Fixpoint str_eqb (a b : jsstring) : bool :=
  match a, b with
  | [], [] => true
  | x :: a', y :: b' => N.eqb x y && str_eqb a' b'
  | _, _ => false
  end.

(** [a < b] on strings: a proper prefix is smaller, otherwise the first
    differing code units decide. *)
Fixpoint str_ltb (a b : jsstring) : bool :=
  match a, b with
  | _, [] => false
  | [], _ :: _ => true
  | x :: a', y :: b' =>
      if N.ltb x y then true
      else if N.ltb y x then false
      else str_ltb a' b'
  end.

(** [s.substr(0, n)] *)
Definition substr0 (n : nat) (s : jsstring) : jsstring := firstn n s.

(** [xs.join(sep)] *)
Fixpoint join (sep : jsstring) (xs : list jsstring) : jsstring :=
  match xs with
  | [] => []
  | [x] => x
  | x :: r => x ++ sep ++ join sep r
  end.

(* ------------------------------------------------------------------ *)
(** ** Array.prototype.sort *)

(** A stable insertion sort driven by the comparator, as [sort(cmp)] is
    specified for a comparator that orders the elements: [x] goes before [y]
    when [cmp x y <= 0]. *)
Fixpoint insert_by {A} (cmp : A -> A -> Z) (x : A) (l : list A) : list A :=
  match l with
  | [] => [x]
  | y :: r => if Z.leb (cmp x y) 0 then x :: l else y :: insert_by cmp x r
  end.

Definition Array_sort {A} (cmp : A -> A -> Z) (l : list A) : list A :=
  fold_right (insert_by cmp) [] l.

(** The comparator of [sort()] without an argument, on strings. *)
Definition default_compare (a b : jsstring) : Z :=
  if str_ltb a b then (-1)%Z else if str_ltb b a then 1%Z else 0%Z.

(* ------------------------------------------------------------------ *)
(** ** Objects used as string-keyed maps *)

(** The own enumerable properties in [Object.keys] order.  The keys this
    program writes are never array indices, so a write updates the entry in
    place or appends it. *)
Definition object := list (jsstring * jsstring).

Definition Object_keys (o : object) : list jsstring := map fst o.

(** [o[k]] *)
Fixpoint obj_get (o : object) (k : jsstring) : option jsstring :=
  match o with
  | [] => None
  | (k', v) :: r => if str_eqb k' k then Some v else obj_get r k
  end.

(** [o[k] = v] *)
Fixpoint obj_set (o : object) (k v : jsstring) : object :=
  match o with
  | [] => [(k, v)]
  | (k', v') :: r => if str_eqb k' k then (k', v) :: r else (k', v') :: obj_set r k v
  end.

(* ------------------------------------------------------------------ *)
(** ** Whitespace: trim and the regular expression class \s *)

(** WhiteSpace and LineTerminator of ECMAScript: what [trim] strips and what
    [\s] matches. *)
Definition is_space (c : code_unit) : bool :=
  (N.leb 9 c && N.leb c 13) || N.eqb c 32 || N.eqb c 160 || N.eqb c 5760
  || (N.leb 8192 c && N.leb c 8202) || N.eqb c 8232 || N.eqb c 8233
  || N.eqb c 8239 || N.eqb c 8287 || N.eqb c 12288 || N.eqb c 65279.

Fixpoint dropWhile {A} (f : A -> bool) (l : list A) : list A :=
  match l with
  | [] => []
  | x :: r => if f x then dropWhile f r else l
  end.

(** [s.trim()] *)
Definition trim (s : jsstring) : jsstring :=
  rev (dropWhile is_space (rev (dropWhile is_space s))).

(** [s.replace(/\s+/g, ' ')]: every maximal run of whitespace becomes one
    space.  [in_run] tells that the previous code unit was whitespace. *)
Fixpoint collapse_from (in_run : bool) (s : jsstring) : jsstring :=
  match s with
  | [] => []
  | c :: r =>
      if is_space c
      then (if in_run then collapse_from true r else 32%N :: collapse_from true r)
      else c :: collapse_from false r
  end.

Definition collapse_spaces (s : jsstring) : jsstring := collapse_from false s.

(* ------------------------------------------------------------------ *)
(** ** encodeURI and encodeURIComponent *)

Definition is_alpha (c : code_unit) : bool :=
  (N.leb 65 c && N.leb c 90) || (N.leb 97 c && N.leb c 122).

Definition is_digit (c : code_unit) : bool := N.leb 48 c && N.leb c 57.

Definition mem_str (c : code_unit) (s : jsstring) : bool := existsb (N.eqb c) s.

(** uriUnescaped: letters, digits and the nine marks (hyphen, underscore,
    dot, exclamation mark, tilde, asterisk, apostrophe, parentheses). *)
Definition uriUnescaped (c : code_unit) : bool :=
  is_alpha c || is_digit c || mem_str c (js "-_.!~*'()").

(** uriReserved: semicolon, slash, question mark, colon, at, ampersand,
    equals, plus, dollar, comma. *)
Definition uriReserved (c : code_unit) : bool := mem_str c (js ";/?:@&=+$,").

Definition is_high_surrogate (c : code_unit) : bool := N.leb 55296 c && N.leb c 56319.
Definition is_low_surrogate (c : code_unit) : bool := N.leb 56320 c && N.leb c 57343.

Definition upper_hex_digit (n : N) : code_unit :=
  if N.ltb n 10 then (48 + n)%N else (55 + n)%N.

Definition lower_hex_digit (n : N) : code_unit :=
  if N.ltb n 10 then (48 + n)%N else (87 + n)%N.

(** One octet as [%XX], upper-case. *)
Definition pct (b : N) : jsstring :=
  [37%N; upper_hex_digit (b / 16); upper_hex_digit (b mod 16)].

(** The UTF-8 octets of a code point. *)
Definition utf8 (cp : N) : list N :=
  if N.ltb cp 128 then [cp]
  else if N.ltb cp 2048 then [(192 + cp / 64)%N; (128 + cp mod 64)%N]
  else if N.ltb cp 65536 then
    [(224 + cp / 4096)%N; (128 + (cp / 64) mod 64)%N; (128 + cp mod 64)%N]
  else
    [(240 + cp / 262144)%N; (128 + (cp / 4096) mod 64)%N;
     (128 + (cp / 64) mod 64)%N; (128 + cp mod 64)%N].

Definition pct_utf8 (cp : N) : jsstring := flat_map pct (utf8 cp).

Definition surrogate_pair (hi lo : code_unit) : N :=
  ((hi - 55296) * 1024 + (lo - 56320) + 65536)%N.

(** The abstract operation Encode: code units of [keep] are copied, every
    other code point is written as the [%XX] of its UTF-8 octets, and a
    surrogate that is not half of a pair throws a URIError. *)
Fixpoint Encode (keep : code_unit -> bool) (s : jsstring) : result jsstring :=
  match s with
  | [] => Ok []
  | c :: r =>
      if keep c then rmap (cons c) (Encode keep r)
      else if is_low_surrogate c then Throw URIError
      else if is_high_surrogate c then
        match r with
        | d :: r' =>
            if is_low_surrogate d
            then rmap (app (pct_utf8 (surrogate_pair c d))) (Encode keep r')
            else Throw URIError
        | [] => Throw URIError
        end
      else rmap (app (pct_utf8 c)) (Encode keep r)
  end.

Definition encodeURI_keep (c : code_unit) : bool :=
  uriReserved c || uriUnescaped c || N.eqb c 35.

Definition encodeURI (s : jsstring) : result jsstring := Encode encodeURI_keep s.

Definition encodeURIComponent (s : jsstring) : result jsstring := Encode uriUnescaped s.

(** [n.toString(16)]: lower-case digits, no padding. *)
Fixpoint to_radix16 (fuel : nat) (n : N) (acc : jsstring) : jsstring :=
  match fuel with
  | O => acc
  | S f =>
      let acc' := lower_hex_digit (n mod 16) :: acc in
      if N.eqb (n / 16) 0 then acc' else to_radix16 f (n / 16) acc'
  end.

Definition toString16 (n : N) : jsstring :=
  to_radix16 (S (N.to_nat (N.log2 n))) n [].

(* ------------------------------------------------------------------ *)
(** ** The timestamp expression of the orchestrator *)

(** [s.replace(/\.\d{3}Z$/, 'Z')]: only a suffix can match. *)
Definition strip_millis (s : jsstring) : jsstring :=
  let n := List.length s in
  match skipn (n - 5) s with
  | [dot; d1; d2; d3; z] =>
      if N.eqb dot 46 && is_digit d1 && is_digit d2 && is_digit d3 && N.eqb z 90
      then firstn (n - 5) s ++ [90%N]
      else s
  | _ => s
  end.

(** [s.replace(/[:\-]|\.\d{3}/g, '')] *)
Fixpoint strip_punct (s : jsstring) : jsstring :=
  match s with
  | [] => []
  | c :: r =>
      if N.eqb c 58 || N.eqb c 45 then strip_punct r
      else if N.eqb c 46 then
        match r with
        | d1 :: d2 :: d3 :: r' =>
            if is_digit d1 && is_digit d2 && is_digit d3
            then strip_punct r'
            else c :: strip_punct r
        | _ => c :: strip_punct r
        end
      else c :: strip_punct r
  end.

(* ================================================================== *)
(** * External collaborators *)
(* ================================================================== *)

(** A key of HMAC: text, or the binary output of an earlier stage. *)
Inductive hmac_key (W : Type) : Type :=
| KeyString (s : jsstring)
| KeyWords (w : W).
Arguments KeyString {W} s.
Arguments KeyWords {W} w.

(** crypto-js: [SHA256(message)], [HmacSHA256(message, key)] and
    [words.toString(enc.Hex)]. *)
Class PrimitiveProvider : Type := {
  WordArray : Type;
  SHA256 : jsstring -> WordArray;
  HmacSHA256 : maybe jsstring -> hmac_key WordArray -> WordArray;
  enc_Hex : WordArray -> jsstring
}.

(** What [url.parse] returns, as far as this program reads it.  The hostname
    is taken at its declared type, a string: an endpoint in which [url.parse]
    finds no host is outside the model (the specification leaves malformed
    endpoints to the caller).  For such an endpoint Node gives [null], the
    program stores it as the Host header and the call throws a TypeError when
    the canonical headers trim it; the statements below about a call are
    about endpoints with a host, and none of them says that a call returns
    from the return of [url.parse] alone.  The pathname may be [null], which
    [buildCanonicalUri] handles. *)
Record Url : Type := {
  url_hostname : jsstring;
  url_pathname : maybe jsstring
}.

(** The JavaScript host: the Unicode case mappings of [String.prototype],
    [url.parse] on a string, the reading of the clock
    [new Date().toISOString()], the values other than [null] and
    [undefined] with the strings among them, and [JSON.stringify] on such a
    value (it returns a string or [undefined], or throws). *)
Class JsHost : Type := {
  toLowerCase : jsstring -> jsstring;
  toUpperCase : jsstring -> jsstring;
  url_parse : jsstring -> result Url;
  Date_now_toISOString : jsstring;
  JsValue : Type;
  string_value : jsstring -> JsValue;
  JSON_stringify : JsValue -> result (option jsstring)
}.

(* ================================================================== *)
(** * The data model of sigv4.ts *)
(* ================================================================== *)

Definition Headers := object.
Definition QueryParams := object.

Record ISignRequestConfig {H : JsHost} : Type := {
  method : maybe jsstring;
  endpoint : maybe jsstring;
  path : maybe jsstring;
  headers : maybe Headers;
  params : maybe QueryParams;
  data : maybe JsValue;
  region : maybe jsstring;
  accessKey : maybe jsstring;
  secretKey : maybe jsstring;
  sessionToken : maybe jsstring;
  serviceName : maybe jsstring
}.

Record ISigningParts {H : JsHost} : Type := {
  parts_config : ISignRequestConfig;
  parts_headers : Headers;
  authHeader : jsstring;
  signature : jsstring;
  canonicalRequest : jsstring;
  stringToSign : jsstring
}.

Definition AWS_SHA_256 : jsstring := js "AWS4-HMAC-SHA256".
Definition AWS4_REQUEST : jsstring := js "aws4_request".
Definition AWS4 : jsstring := js "AWS4".
Definition X_AMZ_DATE : jsstring := js "x-amz-date".
Definition X_AMZ_SECURITY_TOKEN : jsstring := js "x-amz-security-token".
Definition AUTHORIZATION : jsstring := js "Authorization".
Definition HOST : jsstring := js "Host".

(** The property names [assertProps] is called with. *)
Inductive prop : Type :=
| P_method | P_path | P_region | P_endpoint | P_accessKey | P_secretKey.

Definition prop_name (p : prop) : jsstring :=
  match p with
  | P_method => js "method"
  | P_path => js "path"
  | P_region => js "region"
  | P_endpoint => js "endpoint"
  | P_accessKey => js "accessKey"
  | P_secretKey => js "secretKey"
  end.

Definition requiredProps : list prop :=
  [P_method; P_path; P_region; P_endpoint; P_accessKey; P_secretKey].

(* ================================================================== *)
(** * utils.ts and sigv4.ts *)
(* ================================================================== *)

Section Model.
Context {P : PrimitiveProvider} {H : JsHost}.

(** A computation that reads and mutates the caller's config object and
    returns or throws; the state it ends in is observable either way. *)
Definition M (A : Type) : Type := ISignRequestConfig -> result A * ISignRequestConfig.

Definition ret {A} (a : A) : M A := fun c => (Ok a, c).

Definition bind {A B} (m : M A) (k : A -> M B) : M B :=
  fun c =>
    match m c with
    | (Ok a, c') => k a c'
    | (Throw e, c') => (Throw e, c')
    end.

Definition reads {A} (f : ISignRequestConfig -> A) : M A := fun c => (Ok (f c), c).

Definition attempt {A} (f : ISignRequestConfig -> result A) : M A := fun c => (f c, c).

Definition modify (f : ISignRequestConfig -> ISignRequestConfig) : M unit :=
  fun c => (Ok tt, f c).

Notation "x <- m ;; k" := (bind m (fun x => k))
  (at level 61, m at next level, right associativity).
Notation "m ;; k" := (bind m (fun _ => k))
  (at level 61, right associativity).

Definition with_headers (h : maybe Headers) (c : ISignRequestConfig) : ISignRequestConfig :=
  {| method := method c; endpoint := endpoint c; path := path c;
     headers := h; params := params c; data := data c;
     region := region c; accessKey := accessKey c; secretKey := secretKey c;
     sessionToken := sessionToken c; serviceName := serviceName c |}.

Definition with_params (q : maybe QueryParams) (c : ISignRequestConfig) : ISignRequestConfig :=
  {| method := method c; endpoint := endpoint c; path := path c;
     headers := headers c; params := q; data := data c;
     region := region c; accessKey := accessKey c; secretKey := secretKey c;
     sessionToken := sessionToken c; serviceName := serviceName c |}.

Definition with_serviceName (s : maybe jsstring) (c : ISignRequestConfig) : ISignRequestConfig :=
  {| method := method c; endpoint := endpoint c; path := path c;
     headers := headers c; params := params c; data := data c;
     region := region c; accessKey := accessKey c; secretKey := secretKey c;
     sessionToken := sessionToken c; serviceName := s |}.

Definition with_data (d : maybe JsValue) (c : ISignRequestConfig) : ISignRequestConfig :=
  {| method := method c; endpoint := endpoint c; path := path c;
     headers := headers c; params := params c; data := d;
     region := region c; accessKey := accessKey c; secretKey := secretKey c;
     sessionToken := sessionToken c; serviceName := serviceName c |}.

(* ------------------------------------------------------------------ *)
(** ** utils.ts *)

(** [config[prop]] for the property names of [requiredProps]. *)
Definition get_prop (config : ISignRequestConfig) (p : prop) : maybe jsstring :=
  match p with
  | P_method => method config
  | P_path => path config
  | P_region => region config
  | P_endpoint => endpoint config
  | P_accessKey => accessKey config
  | P_secretKey => secretKey config
  end.

Definition missing_property_message (p : prop) : jsstring :=
  js "[SigV4]: missing config property '" ++ prop_name p ++ js "'".

Fixpoint assertProps (config : ISignRequestConfig) (props : list prop) : result unit :=
  match props with
  | [] => Ok tt
  | p :: rest =>
      if is_undefined (get_prop config p)
      then Throw (ThrownString (missing_property_message p))
      else assertProps config rest
  end.

(** [assertValue(config, prop, val)], the property given by its getter and
    setter. *)
Definition assertValue {A} (get : ISignRequestConfig -> maybe A)
    (set : maybe A -> ISignRequestConfig -> ISignRequestConfig) (val : A)
    (config : ISignRequestConfig) : ISignRequestConfig :=
  if is_nullish (get config) then set (Val val) config else config.

Definition hash (value : jsstring) : WordArray := SHA256 value.

Definition hexEncode (value : WordArray) : jsstring := enc_Hex value.

Definition hmac (key : hmac_key WordArray) (value : maybe jsstring) : WordArray :=
  HmacSHA256 value key.

(** The replacement callback of [fixedEncodeURIComponent]:
    ['%' + c.charCodeAt(0).toString(16)] on the five characters of the class. *)
Definition escape_mark (c : code_unit) : jsstring :=
  if mem_str c (js "!'()*") then 37%N :: toString16 c else [c].

Definition fixedEncodeURIComponent (str : jsstring) : result jsstring :=
  rmap (flat_map escape_mark) (encodeURIComponent str).

(* ------------------------------------------------------------------ *)
(** ** sigv4.ts: canonical request *)

Definition buildCanonicalUri (path : maybe jsstring) : result jsstring :=
  let p := match path with
           | Val [] => js "/"
           | Val s => s
           | _ => js "/"
           end in
  encodeURI p.

(** The comparator of both [sort] calls: by name, and by value for equal
    names; it never answers [0]. *)
Definition compare_entries (a b : jsstring * jsstring) : Z :=
  if str_eqb (fst a) (fst b)
  then (if str_ltb (snd a) (snd b) then (-1)%Z else 1%Z)
  else (if str_ltb (fst a) (fst b) then (-1)%Z else 1%Z).

Definition query_segment (param : jsstring * jsstring) : result jsstring :=
  rmap (fun v => fst param ++ js "=" ++ v) (fixedEncodeURIComponent (snd param)).

(** [Object.keys(o).map(name => ({ name, value: o[name] }))] is the list of
    the entries of [o] (see [own_entries]). *)
Definition buildCanonicalQueryString (queryParams : QueryParams) : result jsstring :=
  if Nat.ltb (List.length (Object_keys queryParams)) 1 then Ok []
  else
    let sorted := Array_sort compare_entries queryParams in
    rmap (join (js "&")) (map_result query_segment sorted).

Record CanonicalHeader : Type := {
  oName : jsstring;
  name : jsstring;
  value : jsstring
}.

Definition compare_headers (a b : CanonicalHeader) : Z :=
  if str_eqb (oName a) (oName b)
  then (if str_ltb (value a) (value b) then (-1)%Z else 1%Z)
  else (if str_ltb (oName a) (oName b) then (-1)%Z else 1%Z).

Definition canonical_header (e : jsstring * jsstring) : CanonicalHeader :=
  {| oName := fst e; name := toLowerCase (fst e); value := snd e |}.

Definition header_line (curr : CanonicalHeader) : jsstring :=
  name curr ++ js ":" ++ collapse_spaces (trim (value curr)) ++ LF.

Definition buildCanonicalHeaders (headers : Headers) : jsstring :=
  let canonicalHeaders := Array_sort compare_headers (map canonical_header headers) in
  fold_left (fun prev curr => prev ++ header_line curr) canonicalHeaders [].

Definition buildCanonicalSignedHeaders (headers : Headers) : jsstring :=
  join (js ";") (Array_sort default_compare (map toLowerCase (Object_keys headers))).

Definition buildHashedPayload (payload : jsstring) : jsstring :=
  toLowerCase (hexEncode (hash payload)).

(** The default parameter values apply to an argument that is [undefined]:
    [queryParams], and [payload], which is a string or [None] for
    [undefined].  [Object.keys(null)] throws a TypeError.  The operands of the
    sum are evaluated from left to right, so the first throw is the one
    seen. *)
Definition buildCanonicalRequest (method path : maybe jsstring) (headers : Headers)
    (queryParams : maybe QueryParams) (payload : option jsstring) : result jsstring :=
  let payload := match payload with Some s => s | None => [] end in
  rbind (match method with Val m => Ok (toUpperCase m) | _ => Throw TypeError end) (fun m =>
  rbind (buildCanonicalUri path) (fun uri =>
  rbind (match queryParams with
         | Undefined => buildCanonicalQueryString []
         | Null => Throw TypeError
         | Val q => buildCanonicalQueryString q
         end) (fun qs =>
  Ok (m ++ LF ++ uri ++ LF ++ qs ++ LF ++
      buildCanonicalHeaders headers ++ LF ++
      buildCanonicalSignedHeaders headers ++ LF ++
      buildHashedPayload payload)))).

(* ------------------------------------------------------------------ *)
(** ** sigv4.ts: string to sign, signing key, signature *)

Definition hashCanonicalRequest (request : jsstring) : jsstring :=
  toLowerCase (hexEncode (hash request)).

Definition buildStringToSign (datetime credentialScope canonicalRequest : jsstring) : jsstring :=
  AWS_SHA_256 ++ LF ++ datetime ++ LF ++ credentialScope ++ LF ++
  hashCanonicalRequest canonicalRequest.

Definition buildCredentialScope (datetime : jsstring) (region service : maybe jsstring) : jsstring :=
  substr0 8 datetime ++ js "/" ++ ToString region ++ js "/" ++ ToString service ++
  js "/" ++ AWS4_REQUEST.

Definition buildSigningKey (secretKey : maybe jsstring) (datetime : jsstring)
    (region service : maybe jsstring) : WordArray :=
  let kDate := hmac (KeyString (AWS4 ++ ToString secretKey)) (Val (substr0 8 datetime)) in
  let kRegion := hmac (KeyWords kDate) region in
  let kService := hmac (KeyWords kRegion) service in
  hmac (KeyWords kService) (Val AWS4_REQUEST).

Definition buildSignature (key : WordArray) (stringToSign : jsstring) : jsstring :=
  hexEncode (hmac (KeyWords key) (Val stringToSign)).

Definition buildAuthorizationHeader (accessKey : maybe jsstring) (credentialScope : jsstring)
    (headers : Headers) (signature : jsstring) : jsstring :=
  AWS_SHA_256 ++ js " Credential=" ++ ToString accessKey ++ js "/" ++ credentialScope ++
  js ", SignedHeaders=" ++ buildCanonicalSignedHeaders headers ++
  js ", Signature=" ++ signature.

(** [url.parse] throws a TypeError on an argument that is not a string. *)
Definition hostname (endpoint : maybe jsstring) : result jsstring :=
  match endpoint with
  | Val e => rmap url_hostname (url_parse e)
  | _ => Throw TypeError
  end.

(** [endpoint + path]: a string as soon as one operand is a string, a number
    otherwise. *)
Definition js_add (a b : maybe jsstring) : option jsstring :=
  match a, b with
  | Val s, _ => Some (s ++ ToString b)
  | _, Val t => Some (ToString a ++ t)
  | _, _ => None
  end.

Definition getPath (endpoint path : maybe jsstring) : result (maybe jsstring) :=
  match js_add endpoint path with
  | Some u => rmap url_pathname (url_parse u)
  | None => Throw TypeError
  end.

(* ------------------------------------------------------------------ *)
(** ** sigv4.ts: the orchestrator *)

(** [config.headers] where an object is needed. *)
Definition the_headers : M Headers :=
  attempt (fun c => match headers c with Val h => Ok h | _ => Throw TypeError end).

(** [config.headers[k] = v] *)
Definition set_header (k v : jsstring) : M unit :=
  h <- the_headers ;; modify (with_headers (Val (obj_set h k v))).

(** [config.headers[k]] for a key [k] of the object, where the read yields
    a value (see [obj_get_key]). *)
Definition get_header (k : jsstring) : M jsstring :=
  h <- the_headers ;;
  attempt (fun _ => match obj_get h k with Some v => Ok v | None => Throw TypeError end).

Definition current_datetime : jsstring :=
  strip_punct (strip_millis Date_now_toISOString).

(** [config.data = config.data != null ? JSON.stringify(config.data) : ''];
    the value is the payload handed on, [None] for [undefined]. *)
Definition serialize_data : M (option jsstring) :=
  d <- reads data ;;
  match d with
  | Val v =>
      r <- attempt (fun _ => JSON_stringify v) ;;
      modify (with_data (match r with Some s => Val (string_value s) | None => Undefined end)) ;;
      ret r
  | _ => modify (with_data (Val (string_value []))) ;; ret (Some [])
  end.

Definition buildSigningParts : M ISigningParts :=
  attempt (fun config => assertProps config requiredProps) ;;
  modify (assertValue headers with_headers []) ;;
  modify (assertValue params with_params []) ;;
  modify (assertValue serviceName with_serviceName (js "execute-api")) ;;
  keys <- (h <- the_headers ;; ret (Object_keys h)) ;;
  datetime <-
    match find (fun val => str_eqb (toLowerCase val) X_AMZ_DATE) keys with
    | Some passedDateHeader => get_header passedDateHeader
    | None => set_header X_AMZ_DATE current_datetime ;; ret current_datetime
    end ;;
  path <- attempt (fun config => getPath (endpoint config) (path config)) ;;
  host <- attempt (fun config => hostname (endpoint config)) ;;
  set_header HOST host ;;
  token <- reads sessionToken ;;
  match token with
  | Val t => set_header X_AMZ_SECURITY_TOKEN t
  | _ => ret tt
  end ;;
  payload <- serialize_data ;;
  canonicalRequest <-
    attempt (fun config =>
      rbind (match headers config with Val h => Ok h | _ => Throw TypeError end) (fun h =>
      buildCanonicalRequest (method config) path h (params config) payload)) ;;
  config <- reads (fun c => c) ;;
  let credentialScope := buildCredentialScope datetime (region config) (serviceName config) in
  let stringToSign := buildStringToSign datetime credentialScope canonicalRequest in
  let signingKey := buildSigningKey (secretKey config) datetime (region config) (serviceName config) in
  let signature := buildSignature signingKey stringToSign in
  h <- the_headers ;;
  let authHeader := buildAuthorizationHeader (accessKey config) credentialScope h signature in
  set_header AUTHORIZATION authHeader ;;
  config <- reads (fun c => c) ;;
  h <- the_headers ;;
  ret {| parts_config := config; parts_headers := h; authHeader := authHeader;
         signature := signature; stringToSign := stringToSign;
         canonicalRequest := canonicalRequest |}.

(** index.ts: [sign(config)] is [buildSigningParts(config).headers]. *)
Definition sign : M Headers :=
  parts <- buildSigningParts ;; ret (parts_headers parts).

End Model.

(* ================================================================== *)
(** * Vocabulary of the specification *)
(* ================================================================== *)

(** Lexicographic order on (name, value) entries: by name, ties by value. *)
Definition entry_lt (a b : jsstring * jsstring) : Prop :=
  str_ltb (fst a) (fst b) = true \/
  (fst a = fst b /\ str_ltb (snd a) (snd b) = true).

Definition entry_le (a b : jsstring * jsstring) : Prop := entry_lt a b \/ a = b.

(** The maximal runs of non-whitespace code units of a string, in order.
    [cur] holds the run being read, reversed. *)
Fixpoint words_from (cur : jsstring) (s : jsstring) : list jsstring :=
  match s with
  | [] => match cur with [] => [] | _ => [rev cur] end
  | c :: r =>
      if is_space c
      then match cur with
           | [] => words_from [] r
           | _ => rev cur :: words_from [] r
           end
      else words_from (c :: cur) r
  end.

Definition words (s : jsstring) : list jsstring := words_from [] s.

Definition unwords (ws : list jsstring) : jsstring := join [32%N] ws.

(** [s.split('\n')] *)
Fixpoint lines_from (cur : jsstring) (s : jsstring) : list jsstring :=
  match s with
  | [] => [rev cur]
  | c :: r =>
      if N.eqb c 10 then rev cur :: lines_from [] r
      else lines_from (c :: cur) r
  end.

Definition lines (s : jsstring) : list jsstring := lines_from [] s.

Definition ascii_lower (c : code_unit) : code_unit :=
  if N.leb 65 c && N.leb c 90 then (c + 32)%N else c.

Definition ascii_upper (c : code_unit) : code_unit :=
  if N.leb 97 c && N.leb c 122 then (c - 32)%N else c.

Definition is_ascii (s : jsstring) : bool := forallb (fun c => N.ltb c 128) s.

(** On a string of ASCII code units the case mapping of the language changes
    the letters A to Z only. *)
Definition lowercases_ascii (H : JsHost) : Prop :=
  forall s, is_ascii s = true -> toLowerCase s = map ascii_lower s.

(** A header of the given lower-case name is present, whatever the case it is
    stored in. *)
Definition has_header {H : JsHost} (lname : jsstring) (h : Headers) : bool :=
  existsb (fun k => str_eqb (toLowerCase k) lname) (Object_keys h).

(** The header mapping the caller passed, empty when there was none. *)
Definition caller_headers {H : JsHost} (config : ISignRequestConfig) : Headers :=
  match headers config with Val h => h | _ => [] end.

(** The canonical query string in the words of the specification: name and
    value of every pair percent-encoded, pairs sorted by raw name and value. *)
Definition spec_query_segment (param : jsstring * jsstring) : result jsstring :=
  rbind (fixedEncodeURIComponent (fst param)) (fun n =>
  rbind (fixedEncodeURIComponent (snd param)) (fun v => Ok (n ++ js "=" ++ v))).

Definition spec_canonical_query_string (queryParams : QueryParams) : result jsstring :=
  rmap (join (js "&")) (map_result spec_query_segment (Array_sort compare_entries queryParams)).

(** The query parameters the caller passed, empty when there were none. *)
Definition caller_params {H : JsHost} (config : ISignRequestConfig) : QueryParams :=
  match params config with Val q => q | _ => [] end.

Definition service_or_default {H : JsHost} (config : ISignRequestConfig) : jsstring :=
  match serviceName config with Val s => s | _ => js "execute-api" end.

(** The date header the caller passed, under the name it is stored with. *)
Definition passed_date_header {H : JsHost} (h : Headers) : option jsstring :=
  find (fun val => str_eqb (toLowerCase val) X_AMZ_DATE) (Object_keys h).

(** The header mapping that is signed: the caller's headers with the date
    header when none was passed, the host header and, with a session token,
    the security-token header.  The authorization header is not in it yet. *)
Definition signed_header_set {H : JsHost} (config : ISignRequestConfig)
    (datetime host : jsstring) : Headers :=
  let h0 := caller_headers config in
  let h1 := match passed_date_header h0 with
            | Some _ => h0
            | None => obj_set h0 X_AMZ_DATE datetime
            end in
  let h2 := obj_set h1 HOST host in
  match sessionToken config with
  | Val t => obj_set h2 X_AMZ_SECURITY_TOKEN t
  | _ => h2
  end.

(** No code unit of the string is a surrogate. *)
Definition no_surrogates (s : jsstring) : bool :=
  forallb (fun c => negb (is_high_surrogate c || is_low_surrogate c)) s.

(** [a] is not above [b] in the order of the less-than operator. *)
Definition str_le (a b : jsstring) : Prop := str_ltb b a = false.

(** Every high surrogate is followed by a low one, and every low surrogate
    follows a high one. *)
Fixpoint well_paired (s : jsstring) : bool :=
  match s with
  | [] => true
  | c :: r =>
      if is_low_surrogate c then false
      else if is_high_surrogate c then
        match r with
        | d :: r' => is_low_surrogate d && well_paired r'
        | [] => false
        end
      else well_paired r
  end.

(** Every element is a code unit, a number below 65536. *)
Definition code_units (s : jsstring) : bool := forallb (fun c => N.ltb c 65536) s.

(** The digits and the letters A to F. *)
Definition is_upper_hex (c : code_unit) : bool :=
  is_digit c || (N.leb 65 c && N.leb c 70).

(** The unreserved characters of RFC 3986: letters, digits, hyphen,
    underscore, dot and tilde. *)
Definition rfc3986_unreserved (c : code_unit) : bool :=
  is_alpha c || is_digit c || mem_str c (js "-_.~").






(** No two neighbours are both whitespace. *)
Fixpoint single_spaced (s : jsstring) : bool :=
  match s with
  | [] => true
  | c :: r =>
      match r with
      | [] => true
      | d :: _ => negb (is_space c && is_space d) && single_spaced r
      end
  end.

(** The shape [toISOString] gives an instant of the years 0 to 9999, and
    the compact form of the same instant. *)
Definition iso_instant (Y Mo D h mi s f : jsstring) : jsstring :=
  Y ++ js "-" ++ Mo ++ js "-" ++ D ++ js "T" ++ h ++ js ":" ++ mi ++ js ":" ++ s ++
  js "." ++ f ++ js "Z".

Definition compact_instant (Y Mo D h mi s : jsstring) : jsstring :=
  Y ++ Mo ++ D ++ js "T" ++ h ++ mi ++ s ++ js "Z".

(** A canonical-header line in the words of the specification: the
    lower-cased name, a colon, the words of the value one space apart, and a
    line feed. *)
Definition spec_header_line {H : JsHost} (e : jsstring * jsstring) : jsstring :=
  toLowerCase (fst e) ++ js ":" ++ unwords (words (snd e)) ++ LF.

(** The last code unit, if any, is not whitespace. *)
Fixpoint ends_nonspace (t : jsstring) : bool :=
  match t with
  | [] => true
  | c :: r => match r with [] => negb (is_space c) | _ => ends_nonspace r end
  end.

(** The first code unit, if any, is not whitespace. *)
Definition starts_nonspace (t : jsstring) : bool :=
  match t with [] => true | c :: _ => negb (is_space c) end.

(* ================================================================== *)
(** * Instances to run the model on *)
(* ================================================================== *)

Fixpoint takeWhile {A} (f : A -> bool) (l : list A) : list A :=
  match l with
  | [] => []
  | x :: r => if f x then x :: takeWhile f r else []
  end.

Fixpoint strip_prefix (p s : jsstring) : option jsstring :=
  match p, s with
  | [], _ => Some s
  | x :: p', y :: s' => if N.eqb x y then strip_prefix p' s' else None
  | _ :: _, [] => None
  end.

(** A parser for URLs of the shape [http(s)://host[:port][/path][?query]]. *)
Definition simple_url_parse (u : jsstring) : result Url :=
  let rest :=
    match strip_prefix (js "https://") u with
    | Some r => r
    | None => match strip_prefix (js "http://") u with Some r => r | None => u end
    end in
  let host := takeWhile (fun c => negb (mem_str c (js "/?#:"))) rest in
  let after := dropWhile (fun c => negb (mem_str c (js "/?#"))) rest in
  let p := takeWhile (fun c => negb (mem_str c (js "?#"))) after in
  Ok {| url_hostname := host;
        url_pathname := Val (match p with [] => js "/" | _ => p end) |}.

(** A host for ASCII text: the case mappings act on the letters A to Z, the
    clock is stopped, and the only values are strings, serialized between
    quotes. *)
Definition ascii_host : JsHost := {|
  toLowerCase := map ascii_lower;
  toUpperCase := map ascii_upper;
  url_parse := simple_url_parse;
  Date_now_toISOString := js "2015-08-30T12:36:00.000Z";
  JsValue := jsstring;
  string_value := fun s => s;
  JSON_stringify := fun v => Ok (Some ([34%N] ++ v ++ [34%N]))
|}.

Definition mix (acc : N) (s : jsstring) : N :=
  fold_left (fun a c => ((a * 31 + c) mod 4294967296)%N) s acc.

Fixpoint hex_digits (n : nat) (x : N) : jsstring :=
  match n with
  | O => []
  | S m => hex_digits m (x / 16) ++ [lower_hex_digit (x mod 16)]
  end.

(** A stand-in provider with 32-bit digests, to run the model; every theorem
    holds for all providers. *)
Definition checksum_provider : PrimitiveProvider := {|
  WordArray := N;
  SHA256 := fun m => mix 7 m;
  HmacSHA256 := fun m k =>
    match k with
    | KeyString s => mix (mix 11 s) (ToString m)
    | KeyWords w => mix ((w * 131 + 13) mod 4294967296)%N (ToString m)
    end;
  enc_Hex := hex_digits 8
|}.

(** The request of the AWS test suite's get-vanilla case. *)
Definition vanilla_config : @ISignRequestConfig ascii_host := {|
  method := Val (js "GET");
  endpoint := Val (js "http://example.amazonaws.com");
  path := Val (js "/");
  headers := Val [(js "Host", js "example.amazonaws.com");
                  (js "X-Amz-Date", js "20150830T123600Z")];
  params := Val [];
  data := Undefined;
  region := Val (js "us-east-1");
  accessKey := Val (js "AKIDEXAMPLE");
  secretKey := Val (js "wJalrXUtnFEMI/K7MDENG+bPxRfiCYEXAMPLEKEY");
  sessionToken := Undefined;
  serviceName := Val (js "service")
|}.

Definition with_secretKey {H : JsHost} (s : maybe jsstring) (c : ISignRequestConfig)
  : ISignRequestConfig :=
  {| method := method c; endpoint := endpoint c; path := path c;
     headers := headers c; params := params c; data := data c;
     region := region c; accessKey := accessKey c; secretKey := s;
     sessionToken := sessionToken c; serviceName := serviceName c |}.

(** A bare config: no headers, params, body, token or service name. *)
Definition bare_config : @ISignRequestConfig ascii_host := {|
  method := Val (js "post");
  endpoint := Val (js "https://api.example.com:8443/v1");
  path := Val (js "/items");
  headers := Undefined;
  params := Undefined;
  data := Val (string_value (js "{}"));
  region := Val (js "eu-west-1");
  accessKey := Val (js "AKID");
  secretKey := Val (js "secret");
  sessionToken := Val (js "TOKEN");
  serviceName := Undefined
|}.

(** The method is null: it passes validation and cannot be upper-cased. *)
Definition null_method_config : @ISignRequestConfig ascii_host := {|
  method := Null;
  endpoint := Val (js "https://api.example.com:8443/v1");
  path := Val (js "/items");
  headers := Val [(js "Accept", js "text/plain")];
  params := Undefined;
  data := Undefined;
  region := Val (js "eu-west-1");
  accessKey := Val (js "AKID");
  secretKey := Val (js "secret");
  sessionToken := Val (js "TOKEN");
  serviceName := Undefined
|}.

(** The caller spells the host header in lower case. *)
Definition lower_host_config : @ISignRequestConfig ascii_host := {|
  method := Val (js "GET");
  endpoint := Val (js "http://example.amazonaws.com");
  path := Val (js "/");
  headers := Val [(js "host", js "example.amazonaws.com");
                  (js "X-Amz-Date", js "20150830T123600Z")];
  params := Val [];
  data := Undefined;
  region := Val (js "us-east-1");
  accessKey := Val (js "AKIDEXAMPLE");
  secretKey := Val (js "wJalrXUtnFEMI/K7MDENG+bPxRfiCYEXAMPLEKEY");
  sessionToken := Undefined;
  serviceName := Val (js "service")
|}.

(** The caller already carries a security-token header and passes no
    session token. *)
Definition stale_token_config : @ISignRequestConfig ascii_host := {|
  method := Val (js "GET");
  endpoint := Val (js "http://example.amazonaws.com");
  path := Val (js "/");
  headers := Val [(js "x-amz-date", js "20150830T123600Z");
                  (js "x-amz-security-token", js "OLD")];
  params := Val [];
  data := Undefined;
  region := Val (js "us-east-1");
  accessKey := Val (js "AKIDEXAMPLE");
  secretKey := Val (js "wJalrXUtnFEMI/K7MDENG+bPxRfiCYEXAMPLEKEY");
  sessionToken := Undefined;
  serviceName := Val (js "service")
|}.


(* ================================================================== *)
(** * Strings and their order *)
(* ================================================================== *)

Lemma str_eqb_eq (a b : jsstring) : str_eqb a b = true <-> a = b.
Proof.
  revert b; induction a as [|x a IH]; intros [|y b]; simpl; split; intros E;
    try reflexivity; try discriminate.
  - apply andb_true_iff in E as [E1 E2].
    apply N.eqb_eq in E1. apply IH in E2. now subst.
  - injection E as -> ->. rewrite N.eqb_refl. now apply IH.
Qed.

Lemma str_eqb_refl (a : jsstring) : str_eqb a a = true.
Proof. now apply str_eqb_eq. Qed.

Lemma str_eqb_neq (a b : jsstring) : str_eqb a b = false <-> a <> b.
Proof.
  split.
  - intros E ->. now rewrite str_eqb_refl in E.
  - intros E. destruct (str_eqb a b) eqn:F; [|reflexivity].
    now apply str_eqb_eq in F.
Qed.

Lemma str_ltb_irrefl (a : jsstring) : str_ltb a a = false.
Proof. induction a as [|x a IH]; simpl; [reflexivity|]. now rewrite N.ltb_irrefl. Qed.

Lemma str_ltb_trans (a b c : jsstring) :
  str_ltb a b = true -> str_ltb b c = true -> str_ltb a c = true.
Proof.
  revert b c; induction a as [|x a IH]; intros [|y b] [|z c]; simpl;
    try discriminate; try reflexivity.
  destruct (N.ltb_spec x y), (N.ltb_spec y x), (N.ltb_spec y z), (N.ltb_spec z y),
    (N.ltb_spec x z), (N.ltb_spec z x);
    try discriminate; try reflexivity; try lia; intros; try discriminate.
  replace z with x in * by lia. eauto.
Qed.

(** The order is total: two strings neither of which is below the other are
    equal. *)
Lemma str_ltb_total (a b : jsstring) :
  str_ltb a b = false -> str_ltb b a = false -> a = b.
Proof.
  revert b; induction a as [|x a IH]; intros [|y b]; simpl;
    try discriminate; try reflexivity.
  destruct (N.ltb_spec x y), (N.ltb_spec y x); try discriminate; try lia.
  intros E1 E2. replace y with x by lia. f_equal. now apply IH.
Qed.

Lemma str_ltb_asym (a b : jsstring) : str_ltb a b = true -> str_ltb b a = false.
Proof.
  intros E. destruct (str_ltb b a) eqn:F; [|reflexivity].
  pose proof (str_ltb_trans _ _ _ E F) as G. now rewrite str_ltb_irrefl in G.
Qed.

Lemma entry_le_refl (a : jsstring * jsstring) : entry_le a a.
Proof. now right. Qed.

Lemma entry_lt_trans (a b c : jsstring * jsstring) :
  entry_lt a b -> entry_lt b c -> entry_lt a c.
Proof.
  intros [E|[E1 E2]] [F|[F1 F2]].
  - left. eapply str_ltb_trans; eassumption.
  - left. now rewrite <- F1.
  - left. now rewrite E1.
  - right. split; [congruence|]. eapply str_ltb_trans; eassumption.
Qed.

Lemma entry_le_trans (a b c : jsstring * jsstring) :
  entry_le a b -> entry_le b c -> entry_le a c.
Proof.
  intros [E| ->] [F| ->]; try (now left); try (now right).
  left. eapply entry_lt_trans; eassumption.
Qed.

(** What the comparator of the two [sort] calls answers. *)
Lemma compare_entries_le (a b : jsstring * jsstring) :
  (compare_entries a b <= 0)%Z -> entry_lt a b.
Proof.
  unfold compare_entries, entry_lt.
  destruct (str_eqb (fst a) (fst b)) eqn:E.
  - apply str_eqb_eq in E. destruct (str_ltb (snd a) (snd b)); [auto|lia].
  - destruct (str_ltb (fst a) (fst b)); [auto|lia].
Qed.

Lemma compare_entries_gt (a b : jsstring * jsstring) :
  (0 < compare_entries a b)%Z -> entry_le b a.
Proof.
  unfold compare_entries, entry_le, entry_lt.
  destruct a as [an av], b as [bn bv]; simpl.
  destruct (str_eqb an bn) eqn:E.
  - apply str_eqb_eq in E. subst bn.
    destruct (str_ltb av bv) eqn:F; [lia|]. intros _.
    destruct (str_ltb bv av) eqn:G; [now left; right|].
    right. f_equal. symmetry. now apply str_ltb_total.
  - apply str_eqb_neq in E.
    destruct (str_ltb an bn) eqn:F; [lia|]. intros _.
    destruct (str_ltb bn an) eqn:G; [now left; left|].
    exfalso. apply E. now apply str_ltb_total.
Qed.

(* ================================================================== *)
(** * Array.prototype.sort *)
(* ================================================================== *)

Section Sorting.
Variable A : Type.
Variable cmp : A -> A -> Z.
Variable R : A -> A -> Prop.
Hypothesis cmp_le : forall x y, (cmp x y <= 0)%Z -> R x y.
Hypothesis cmp_gt : forall x y, (0 < cmp x y)%Z -> R y x.

Lemma insert_by_perm (x : A) (l : list A) : Permutation (x :: l) (insert_by cmp x l).
Proof.
  induction l as [|y l IH]; simpl; [reflexivity|].
  destruct (Z.leb (cmp x y) 0); [reflexivity|].
  rewrite perm_swap. now constructor.
Qed.

Lemma Array_sort_perm (l : list A) : Permutation l (Array_sort cmp l).
Proof.
  induction l as [|x l IH]; simpl; [reflexivity|].
  rewrite <- insert_by_perm. now constructor.
Qed.

Lemma insert_by_HdRel (a x : A) (l : list A) :
  R a x -> HdRel R a l -> HdRel R a (insert_by cmp x l).
Proof.
  intros Hax Hl. destruct l as [|y l]; simpl; [now constructor|].
  destruct (Z.leb (cmp x y) 0); constructor; [assumption|].
  now inversion Hl.
Qed.

Lemma insert_by_sorted (x : A) (l : list A) :
  Sorted R l -> Sorted R (insert_by cmp x l).
Proof.
  induction l as [|y l IH]; intros Hs; simpl.
  - repeat constructor.
  - destruct (Z.leb_spec (cmp x y) 0) as [E|E].
    + constructor; [assumption|]. constructor. now apply cmp_le.
    + inversion Hs as [|? ? Hs' Hhd]; subst.
      constructor; [now apply IH|].
      apply insert_by_HdRel; [now apply cmp_gt|assumption].
Qed.

Lemma Array_sort_sorted (l : list A) : Sorted R (Array_sort cmp l).
Proof.
  induction l as [|x l IH]; simpl; [constructor|]. now apply insert_by_sorted.
Qed.

End Sorting.

(** Sorting commutes with a map that respects the comparators. *)
Lemma Array_sort_map {A B} (f : A -> B) (cmpA : A -> A -> Z) (cmpB : B -> B -> Z) :
  (forall x y, cmpB (f x) (f y) = cmpA x y) ->
  forall l, Array_sort cmpB (map f l) = map f (Array_sort cmpA l).
Proof.
  intros Hc. unfold Array_sort. induction l as [|x l IH]; simpl; [reflexivity|].
  rewrite IH. clear IH.
  generalize (fold_right (insert_by cmpA) [] l) as s.
  induction s as [|y s IH]; simpl; [reflexivity|].
  rewrite Hc. destruct (Z.leb (cmpA x y) 0); simpl; [reflexivity|]. now rewrite IH.
Qed.

Lemma entries_sort_strongly_sorted (o : object) :
  StronglySorted entry_le (Array_sort compare_entries o).
Proof.
  apply Sorted_StronglySorted.
  - intros a b c. apply entry_le_trans.
  - apply Array_sort_sorted.
    + intros x y E. left. now apply compare_entries_le.
    + apply compare_entries_gt.
Qed.

(* ================================================================== *)
(** * Header values: trim and the collapse of whitespace runs *)
(* ================================================================== *)

Lemma takeWhile_dropWhile {A} (f : A -> bool) (l : list A) :
  l = takeWhile f l ++ dropWhile f l.
Proof.
  induction l as [|x l IH]; simpl; [reflexivity|].
  destruct (f x); simpl; [now f_equal|reflexivity].
Qed.

Lemma takeWhile_all {A} (f : A -> bool) (l : list A) :
  forallb f (takeWhile f l) = true.
Proof.
  induction l as [|x l IH]; simpl; [reflexivity|].
  destruct (f x) eqn:E; simpl; [now rewrite E|reflexivity].
Qed.

Lemma dropWhile_starts (s : jsstring) : starts_nonspace (dropWhile is_space s) = true.
Proof.
  induction s as [|c s IH]; simpl; [reflexivity|].
  destruct (is_space c) eqn:E; simpl; [assumption|now rewrite E].
Qed.

Lemma ends_nonspace_snoc (l : jsstring) (c : code_unit) :
  ends_nonspace (l ++ [c]) = negb (is_space c).
Proof.
  induction l as [|x l IH]; simpl; [reflexivity|].
  destruct (l ++ [c]) eqn:E; [now destruct l|assumption].
Qed.

(** [trim] splits the string into leading whitespace, the result and
    trailing whitespace. *)
Lemma trim_split (s : jsstring) :
  exists pre suf,
    s = pre ++ trim s ++ suf /\
    forallb is_space pre = true /\ forallb is_space suf = true /\
    starts_nonspace (trim s) = true /\ ends_nonspace (trim s) = true.
Proof.
  unfold trim.
  set (u := dropWhile is_space s).
  exists (takeWhile is_space s), (rev (takeWhile is_space (rev u))).
  assert (Hu : u = rev (dropWhile is_space (rev u)) ++ rev (takeWhile is_space (rev u))).
  { rewrite <- rev_app_distr, <- takeWhile_dropWhile. now rewrite rev_involutive. }
  repeat split.
  - rewrite <- Hu. apply takeWhile_dropWhile.
  - apply takeWhile_all.
  - rewrite forallb_forall. intros x Hx. apply in_rev in Hx.
    pose proof (takeWhile_all is_space (rev u)) as Hall.
    rewrite forallb_forall in Hall. now apply Hall.
  - pose proof (dropWhile_starts s) as Hs. fold u in Hs.
    destruct (rev (dropWhile is_space (rev u))) as [|c t] eqn:E; [reflexivity|].
    rewrite Hu in Hs. exact Hs.
  - pose proof (dropWhile_starts (rev u)) as Hs.
    destruct (dropWhile is_space (rev u)) as [|c d]; [reflexivity|].
    simpl. rewrite ends_nonspace_snoc. exact Hs.
Qed.

Lemma words_from_spaces (cur suf : jsstring) :
  forallb is_space suf = true -> words_from cur suf = words_from cur [].
Proof.
  revert cur. induction suf as [|c suf IH]; intros cur Hs; [reflexivity|].
  simpl in Hs. apply andb_true_iff in Hs as [Hc Hs].
  simpl. rewrite Hc. destruct cur; rewrite IH by assumption; reflexivity.
Qed.

Lemma words_from_app_spaces (t suf cur : jsstring) :
  forallb is_space suf = true -> words_from cur (t ++ suf) = words_from cur t.
Proof.
  intros Hs. revert cur. induction t as [|c t IH]; intros cur.
  - now apply words_from_spaces.
  - simpl. destruct (is_space c); [destruct cur|]; now rewrite IH.
Qed.

Lemma words_skip_spaces (pre t : jsstring) :
  forallb is_space pre = true -> words (pre ++ t) = words t.
Proof.
  unfold words. induction pre as [|c pre IH]; intros Hs; [reflexivity|].
  simpl in Hs. apply andb_true_iff in Hs as [Hc Hs]. simpl. rewrite Hc. now apply IH.
Qed.

Lemma words_trim (s : jsstring) : words (trim s) = words s.
Proof.
  destruct (trim_split s) as (pre & suf & Hs & Hpre & Hsuf & _ & _).
  rewrite Hs at 2. rewrite words_skip_spaces by assumption.
  unfold words. now rewrite words_from_app_spaces.
Qed.

Lemma words_from_nonempty (r cur : jsstring) :
  (cur <> [] \/ (r <> [] /\ ends_nonspace r = true)) -> words_from cur r <> [].
Proof.
  revert cur. induction r as [|c r IH]; intros cur Hc.
  - destruct Hc as [Hc|[Hc _]]; [|congruence]. simpl. destruct cur; congruence.
  - simpl. destruct (is_space c) eqn:E.
    + destruct cur; [|discriminate].
      destruct Hc as [Hc|[_ Hc]]; [congruence|].
      apply IH. right. simpl in Hc. destruct r; [|split; [discriminate|assumption]].
      now rewrite E in Hc.
    + apply IH. left. discriminate.
Qed.

Lemma unwords_cons (x : jsstring) (ws : list jsstring) :
  ws <> [] -> unwords (x :: ws) = x ++ [32%N] ++ unwords ws.
Proof. destruct ws; [congruence|reflexivity]. Qed.

(** The collapse of a string that does not end in whitespace, read against
    its words: inside a word, and inside a run of whitespace. *)
Lemma collapse_from_words (t : jsstring) :
  ends_nonspace t = true ->
  (forall cur, cur <> [] ->
     rev cur ++ collapse_from false t = unwords (words_from cur t)) /\
  collapse_from true t = unwords (words_from [] t).
Proof.
  induction t as [|c t IH]; intros He.
  - split; [|reflexivity]. intros cur Hc. simpl.
    destruct cur; [congruence|]. unfold unwords; simpl. now rewrite app_nil_r.
  - assert (Ht : t = [] \/ (t <> [] /\ ends_nonspace t = true)).
    { destruct t; [now left|right]. split; [discriminate|exact He]. }
    assert (IH' : (forall cur, cur <> [] ->
               rev cur ++ collapse_from false t = unwords (words_from cur t)) /\
            collapse_from true t = unwords (words_from [] t)).
    { apply IH. destruct Ht as [->|[_ Ht]]; [reflexivity|assumption]. }
    destruct IH' as [IH1 IH2].
    destruct (is_space c) eqn:E.
    + assert (Hne : t <> [] /\ ends_nonspace t = true).
      { destruct Ht as [->|Ht]; [|assumption]. simpl in He. now rewrite E in He. }
      split.
      * intros cur Hc. simpl. rewrite E. destruct cur as [|d cur]; [congruence|].
        rewrite unwords_cons by (apply words_from_nonempty; now right).
        now rewrite IH2.
      * simpl. now rewrite E.
    + split.
      * intros cur Hc. simpl. rewrite E.
        rewrite <- IH1 by discriminate. simpl. now rewrite <- app_assoc.
      * simpl. rewrite E. rewrite <- IH1 by discriminate. reflexivity.
Qed.

Lemma collapse_from_start (t : jsstring) :
  starts_nonspace t = true -> collapse_from false t = collapse_from true t.
Proof.
  destruct t as [|c t]; [reflexivity|]. simpl. now destruct (is_space c).
Qed.

(** Trimming and collapsing a value leaves its words, one space between
    two of them. *)
Lemma normalize_words (v : jsstring) :
  collapse_spaces (trim v) = unwords (words v).
Proof.
  destruct (trim_split v) as (_ & _ & _ & _ & _ & Hst & Hen).
  unfold collapse_spaces. rewrite collapse_from_start by assumption.
  rewrite (proj2 (collapse_from_words _ Hen)).
  fold (words (trim v)). now rewrite words_trim.
Qed.

(* ================================================================== *)
(** * Objects *)
(* ================================================================== *)

(** Reading a key of the object yields a value. *)
Lemma obj_get_key (o : object) (k : jsstring) :
  In k (Object_keys o) -> exists v, obj_get o k = Some v.
Proof.
  induction o as [|[k' v'] o IH]; simpl; [contradiction|].
  intros [->|Hin].
  - rewrite str_eqb_refl. eauto.
  - destruct (str_eqb k' k); eauto.
Qed.

(** The keys of an object are distinct, so reading every key in turn gives
    back the entries. *)
Lemma own_entries (o : object) :
  NoDup (Object_keys o) ->
  map (fun name => (name, obj_get o name)) (Object_keys o) =
  map (fun e => (fst e, Some (snd e))) o.
Proof.
  induction o as [|[k v] o IH]; simpl; intros Hnd; [reflexivity|].
  inversion Hnd as [|? ? Hk Hnd']; subst.
  rewrite str_eqb_refl. f_equal.
  rewrite <- IH by assumption.
  apply map_ext_in. intros a Ha.
  destruct (str_eqb k a) eqn:E; [|reflexivity].
  apply str_eqb_eq in E. now subst.
Qed.

Lemma obj_set_keys (o : object) (k v : jsstring) :
  Object_keys (obj_set o k v) =
  if existsb (str_eqb k) (Object_keys o) then Object_keys o else Object_keys o ++ [k].
Proof.
  induction o as [|[k' v'] o IH]; simpl; [reflexivity|].
  destruct (str_eqb k' k) eqn:E.
  - apply str_eqb_eq in E. subst. now rewrite str_eqb_refl.
  - assert (F : str_eqb k k' = false).
    { apply str_eqb_neq. apply str_eqb_neq in E. congruence. }
    rewrite F. simpl. rewrite IH. now destruct (existsb (str_eqb k) (Object_keys o)).
Qed.

Lemma obj_get_set_same (o : object) (k v : jsstring) :
  obj_get (obj_set o k v) k = Some v.
Proof.
  induction o as [|[k' v'] o IH]; simpl.
  - now rewrite str_eqb_refl.
  - destruct (str_eqb k' k) eqn:E; simpl; now rewrite E.
Qed.

Lemma obj_set_In_keys (o : object) (k v x : jsstring) :
  In x (Object_keys (obj_set o k v)) <-> In x (Object_keys o) \/ x = k.
Proof.
  rewrite obj_set_keys.
  destruct (existsb (str_eqb k) (Object_keys o)) eqn:E.
  - split; [auto|]. intros [Hx| ->]; [assumption|].
    apply existsb_exists in E as (y & Hy & Ey). apply str_eqb_eq in Ey. now subst.
  - rewrite in_app_iff. simpl. intuition congruence.
Qed.

(* ================================================================== *)
(** * The canonical query string and the canonical headers *)
(* ================================================================== *)

Lemma fold_left_append {A} (f : A -> jsstring) (l : list A) (acc : jsstring) :
  fold_left (fun prev curr => prev ++ f curr) l acc = acc ++ List.concat (map f l).
Proof.
  revert acc. induction l as [|x l IH]; intros acc; simpl.
  - now rewrite app_nil_r.
  - rewrite IH. now rewrite app_assoc.
Qed.

(** With distinct names, sorted entries have strictly ascending names. *)
Lemma sorted_entries_names (l : list (jsstring * jsstring)) :
  NoDup (map fst l) -> StronglySorted entry_le l ->
  StronglySorted (fun a b => str_ltb (fst a) (fst b) = true) l.
Proof.
  induction l as [|a l IH]; intros Hnd Hs; [constructor|].
  inversion Hnd as [|? ? Hna Hnd']; subst.
  inversion Hs as [|? ? Hs' Hall]; subst.
  constructor; [now apply IH|].
  rewrite Forall_forall in *. intros b Hb.
  destruct (Hall b Hb) as [[E|[E _]]| ->]; [assumption| |].
  - exfalso. apply Hna. rewrite E. now apply in_map.
  - exfalso. apply Hna. now apply in_map.
Qed.

Lemma buildCanonicalQueryString_eq (queryParams : QueryParams) :
  buildCanonicalQueryString queryParams =
  rmap (join (js "&")) (map_result query_segment (Array_sort compare_entries queryParams)).
Proof.
  unfold buildCanonicalQueryString. destruct queryParams; reflexivity.
Qed.

(** C5. The segments of the canonical query string are those of the
    parameters sorted ascending by raw name under the code-unit order of the
    less-than operator, ties broken by raw value, and they are joined with an
    ampersand; for distinct names, as the keys of an object are, the names are
    strictly ascending; the params a=1, A=2 give A=2&a=1. *)
Theorem canonical_query_string_sorted (queryParams : QueryParams) :
  exists sorted,
    Permutation queryParams sorted /\
    StronglySorted entry_le sorted /\
    (NoDup (Object_keys queryParams) ->
     StronglySorted (fun a b => str_ltb (fst a) (fst b) = true) sorted) /\
    buildCanonicalQueryString queryParams =
      rmap (join (js "&")) (map_result query_segment sorted) /\
    buildCanonicalQueryString [(js "a", js "1"); (js "A", js "2")] = Ok (js "A=2&a=1").
Proof.
  exists (Array_sort compare_entries queryParams).
  assert (Hp : Permutation queryParams (Array_sort compare_entries queryParams))
    by apply Array_sort_perm.
  split; [exact Hp|].
  split; [apply entries_sort_strongly_sorted|].
  split.
  - intros Hnd. apply sorted_entries_names; [|apply entries_sort_strongly_sorted].
    eapply Permutation_NoDup; [|exact Hnd]. now apply Permutation_map.
  - split; [apply buildCanonicalQueryString_eq|]. vm_compute. reflexivity.
Qed.

Section CanonicalHeaders.
Context {H : JsHost}.

Lemma buildCanonicalHeaders_eq (headers : Headers) :
  buildCanonicalHeaders headers =
  List.concat (map spec_header_line (Array_sort compare_entries headers)).
Proof.
  unfold buildCanonicalHeaders.
  rewrite (Array_sort_map canonical_header compare_entries compare_headers)
    by reflexivity.
  rewrite fold_left_append, map_map. simpl. f_equal.
  apply map_ext. intros e. unfold header_line, spec_header_line. simpl.
  now rewrite normalize_words.
Qed.

(** C6. The canonical-headers block has one line per header, the lower-cased
    name, a colon, the value and a line feed, where the value is reduced to
    its words with one space between two of them (no leading or trailing
    whitespace, every inner run of whitespace one space); the lines follow the
    order of the original-case names, ties broken by value; the header
    X-Custom with the value of two spaces, a, three spaces, b and two spaces
    gives the line x-custom:a b. *)
Theorem canonical_headers_lines (Hlow : lowercases_ascii H) (headers : Headers) :
  exists sorted,
    Permutation headers sorted /\
    StronglySorted entry_le sorted /\
    (NoDup (Object_keys headers) ->
     StronglySorted (fun a b => str_ltb (fst a) (fst b) = true) sorted) /\
    buildCanonicalHeaders headers = List.concat (map spec_header_line sorted) /\
    (forall e, spec_header_line e =
       toLowerCase (fst e) ++ js ":" ++ collapse_spaces (trim (snd e)) ++ LF) /\
    buildCanonicalHeaders [(js "X-Custom", js "  a   b  ")] = js "x-custom:a b" ++ LF.
Proof.
  exists (Array_sort compare_entries headers).
  assert (Hp : Permutation headers (Array_sort compare_entries headers))
    by apply Array_sort_perm.
  split; [exact Hp|].
  split; [apply entries_sort_strongly_sorted|].
  split.
  { intros Hnd. apply sorted_entries_names; [|apply entries_sort_strongly_sorted].
    eapply Permutation_NoDup; [|exact Hnd]. now apply Permutation_map. }
  split; [apply buildCanonicalHeaders_eq|].
  split.
  { intros e. unfold spec_header_line. now rewrite normalize_words. }
  rewrite buildCanonicalHeaders_eq.
  change (Array_sort compare_entries [(js "X-Custom", js "  a   b  ")])
    with [(js "X-Custom", js "  a   b  ")].
  unfold spec_header_line. simpl List.concat. simpl fst. simpl snd.
  rewrite (Hlow (js "X-Custom")) by reflexivity.
  vm_compute. reflexivity.
Qed.

End CanonicalHeaders.

Lemma canonical_headers_lines_witness :
  exists sorted,
    Permutation (caller_headers vanilla_config) sorted /\
    StronglySorted entry_le sorted /\
    (NoDup (Object_keys (caller_headers vanilla_config)) ->
     StronglySorted (fun a b => str_ltb (fst a) (fst b) = true) sorted) /\
    @buildCanonicalHeaders ascii_host (caller_headers vanilla_config) =
      List.concat (map (@spec_header_line ascii_host) sorted) /\
    (forall e, @spec_header_line ascii_host e =
       @toLowerCase ascii_host (fst e) ++ js ":" ++ collapse_spaces (trim (snd e)) ++ LF) /\
    @buildCanonicalHeaders ascii_host [(js "X-Custom", js "  a   b  ")] =
      js "x-custom:a b" ++ LF.
Proof.
  apply (@canonical_headers_lines ascii_host).
  intros s _. reflexivity.
Defined.

(* ================================================================== *)
(** * encodeURI *)
(* ================================================================== *)

(** Induction that follows [Encode], which reads one code unit or a pair. *)
Lemma list_pair_ind {A} (Q : list A -> Prop) :
  Q [] -> (forall x, Q [x]) ->
  (forall x y l, Q l -> Q (y :: l) -> Q (x :: y :: l)) ->
  forall l, Q l.
Proof.
  intros H0 H1 H2 l.
  assert (HQ : Q l /\ forall x, Q (x :: l)); [|exact (proj1 HQ)].
  induction l as [|y l [IHa IHb]]; split; auto.
Qed.

Lemma rbind_rmap {A B C} (f : A -> B) (r : result A) (k : B -> result C) :
  rbind (rmap f r) k = rbind r (fun a => k (f a)).
Proof. now destruct r. Qed.

Lemma rmap_rbind {A B C} (f : B -> C) (r : result A) (k : A -> result B) :
  rmap f (rbind r k) = rbind r (fun a => rmap f (k a)).
Proof. now destruct r. Qed.


Section EncodeFacts.
Variable keep : code_unit -> bool.





End EncodeFacts.



(** Without surrogates nothing throws. *)
Lemma Encode_no_surrogates (keep : code_unit -> bool) (s : jsstring) :
  no_surrogates s = true -> exists out, Encode keep s = Ok out.
Proof.
  unfold no_surrogates. induction s as [|c s IH]; intros Hs; [now exists []|].
  simpl in Hs. apply andb_true_iff in Hs as [Hc Hs].
  apply negb_true_iff, orb_false_iff in Hc as [Hh Hl].
  destruct (IH Hs) as (out & E).
  destruct s as [|d s]; simpl in *; rewrite ?Hh, ?Hl;
    destruct (keep c); rewrite ?E; unfold rmap; simpl; eauto.
  all: rewrite E; simpl; eauto.
Qed.

Lemma fixedEncodeURIComponent_returns (s : jsstring) :
  no_surrogates s = true -> exists out, fixedEncodeURIComponent s = Ok out.
Proof.
  intros Hs. unfold fixedEncodeURIComponent, encodeURIComponent.
  destruct (Encode_no_surrogates uriUnescaped s Hs) as (out & ->). simpl. eauto.
Qed.

Lemma map_result_returns {A B} (f : A -> result B) (l : list A) :
  (forall x, In x l -> exists y, f x = Ok y) -> exists ys, map_result f l = Ok ys.
Proof.
  induction l as [|x l IH]; intros Hl; [now exists []|].
  destruct (Hl x) as (y & Ey); [now left|].
  destruct IH as (ys & Eys); [intros; apply Hl; now right|].
  simpl. rewrite Ey, Eys. simpl. eauto.
Qed.

Lemma buildCanonicalQueryString_returns (queryParams : QueryParams) :
  (forall e, In e queryParams -> no_surrogates (snd e) = true) ->
  exists qs, buildCanonicalQueryString queryParams = Ok qs.
Proof.
  intros Hq. rewrite buildCanonicalQueryString_eq.
  destruct (map_result_returns query_segment (Array_sort compare_entries queryParams))
    as (ys & E).
  - intros e He. unfold query_segment.
    destruct (fixedEncodeURIComponent_returns (snd e)) as (v & ->); [|simpl; eauto].
    apply Hq. eapply Permutation_in; [|exact He].
    apply Permutation_sym, Array_sort_perm.
  - rewrite E. simpl. eauto.
Qed.






(* ================================================================== *)
(** * The pure builders *)
(* ================================================================== *)

Section Builders.
Context {P : PrimitiveProvider} {H : JsHost}.


(** C2. The signing key is the chain of four HMACs: the first keyed with
    AWS4 followed by the secret key over the first eight characters of the
    timestamp, then over the region, the service and aws4_request, each keyed
    with the output of the stage before; the last output is returned. *)
Theorem signing_key_chain (secretKey timestamp region service : jsstring) :
  exists kDate kRegion kService kSigning : WordArray,
    kDate = HmacSHA256 (Val (firstn 8 timestamp)) (KeyString (js "AWS4" ++ secretKey)) /\
    kRegion = HmacSHA256 (Val region) (KeyWords kDate) /\
    kService = HmacSHA256 (Val service) (KeyWords kRegion) /\
    kSigning = HmacSHA256 (Val (js "aws4_request")) (KeyWords kService) /\
    buildSigningKey (Val secretKey) timestamp (Val region) (Val service) = kSigning.
Proof.
  do 4 eexists. repeat (split; [reflexivity|]).
  unfold buildSigningKey, hmac, substr0, AWS4, AWS4_REQUEST. simpl ToString.
  reflexivity.
Qed.

(** C3. The credential scope is the first eight characters of the timestamp,
    the region, the service and aws4_request joined by slashes; the string to
    sign is the algorithm name, the timestamp, the credential scope and the
    lower-cased hex SHA-256 digest of the canonical request, joined by line
    feeds. *)
Theorem scope_and_string_to_sign (timestamp region service canonicalRequest : jsstring) :
  buildCredentialScope timestamp (Val region) (Val service) =
    firstn 8 timestamp ++ js "/" ++ region ++ js "/" ++ service ++ js "/aws4_request" /\
  buildStringToSign timestamp
      (buildCredentialScope timestamp (Val region) (Val service)) canonicalRequest =
    js "AWS4-HMAC-SHA256" ++ LF ++ timestamp ++ LF ++
    (firstn 8 timestamp ++ js "/" ++ region ++ js "/" ++ service ++ js "/aws4_request") ++
    LF ++ toLowerCase (enc_Hex (SHA256 canonicalRequest)).
Proof.
  assert (E : buildCredentialScope timestamp (Val region) (Val service) =
    firstn 8 timestamp ++ js "/" ++ region ++ js "/" ++ service ++ js "/aws4_request").
  { unfold buildCredentialScope, substr0. simpl ToString. reflexivity. }
  split; [exact E|]. rewrite E.
  unfold buildStringToSign, hashCanonicalRequest, hexEncode, hash. reflexivity.
Qed.

End Builders.

(* ================================================================== *)
(** * The orchestrator *)
(* ================================================================== *)

Section Orchestrator.
Context {P : PrimitiveProvider} {H : JsHost}.

Lemma bind_Ok {A B} (m : M A) (k : A -> M B) c b c' :
  bind m k c = (Ok b, c') ->
  exists a c1, m c = (Ok a, c1) /\ k a c1 = (Ok b, c').
Proof. unfold bind. destruct (m c) as [[a|e] c1]; [eauto|discriminate]. Qed.

Lemma attempt_Ok {A} (f : ISignRequestConfig -> result A) c a c' :
  attempt f c = (Ok a, c') -> f c = Ok a /\ c' = c.
Proof. unfold attempt. intros [= E <-]. auto. Qed.

Lemma modify_Ok f c (u : unit) c' : modify f c = (Ok u, c') -> c' = f c.
Proof. unfold modify. now intros [= <-]. Qed.

Lemma reads_Ok {A} (f : ISignRequestConfig -> A) c a c' :
  reads f c = (Ok a, c') -> a = f c /\ c' = c.
Proof. unfold reads. intros [= <- <-]. auto. Qed.

Lemma ret_Ok {A} (a b : A) (c c' : ISignRequestConfig) :
  ret a c = (Ok b, c') -> b = a /\ c' = c.
Proof. unfold ret. intros [= <- <-]. auto. Qed.

Lemma the_headers_Ok c h c' :
  the_headers c = (Ok h, c') -> headers c = Val h /\ c' = c.
Proof.
  unfold the_headers. intros E. apply attempt_Ok in E as [E ->].
  destruct (headers c); try discriminate. now injection E as ->.
Qed.

Lemma set_header_Ok k v c (u : unit) c' :
  set_header k v c = (Ok u, c') ->
  exists h, headers c = Val h /\ c' = with_headers (Val (obj_set h k v)) c.
Proof.
  unfold set_header. intros E.
  apply bind_Ok in E as (h & c1 & E1 & E2).
  apply the_headers_Ok in E1 as [E1 ->]. apply modify_Ok in E2. eauto.
Qed.

Lemma get_header_Ok k c v c' :
  get_header k c = (Ok v, c') ->
  exists h, headers c = Val h /\ obj_get h k = Some v /\ c' = c.
Proof.
  unfold get_header. intros E.
  apply bind_Ok in E as (h & c1 & E1 & E2).
  apply the_headers_Ok in E1 as [E1 ->]. apply attempt_Ok in E2 as [E2 ->].
  exists h. destruct (obj_get h k); try discriminate. injection E2 as ->. auto.
Qed.

Lemma serialize_data_Ok c payload c' :
  serialize_data c = (Ok payload, c') ->
  match data c with
  | Val v => JSON_stringify v = Ok payload
  | _ => payload = Some []
  end /\ exists d, c' = with_data d c.
Proof.
  unfold serialize_data. intros E.
  apply bind_Ok in E as (d & c1 & E1 & E2).
  apply reads_Ok in E1 as [-> ->].
  destruct (data c) as [| |v].
  - apply bind_Ok in E2 as (u & c2 & E2 & E3).
    apply modify_Ok in E2. apply ret_Ok in E3 as [-> ->]. eauto.
  - apply bind_Ok in E2 as (u & c2 & E2 & E3).
    apply modify_Ok in E2. apply ret_Ok in E3 as [-> ->]. eauto.
  - apply bind_Ok in E2 as (r & c2 & E2 & E3).
    apply attempt_Ok in E2 as [E2 ->].
    apply bind_Ok in E3 as (u & c3 & E3 & E4).
    apply modify_Ok in E3. apply ret_Ok in E4 as [-> ->]. eauto.
Qed.

(** The config after the three [assertValue] calls. *)
Lemma assertValue_defaults (config : ISignRequestConfig) :
  let c := assertValue serviceName with_serviceName (js "execute-api")
             (assertValue params with_params []
                (assertValue headers with_headers [] config)) in
  headers c = Val (caller_headers config) /\
  params c = Val (caller_params config) /\
  serviceName c = Val (service_or_default config) /\
  method c = method config /\ endpoint c = endpoint config /\
  path c = path config /\ data c = data config /\ region c = region config /\
  accessKey c = accessKey config /\ secretKey c = secretKey config /\
  sessionToken c = sessionToken config.
Proof.
  destruct config as [m e p h q d r a s t sv].
  unfold caller_headers, caller_params, service_or_default, assertValue.
  destruct h, q, sv; simpl; repeat split; reflexivity.
Qed.

(** What a returning call of [buildSigningParts] has computed. *)
Lemma buildSigningParts_returns_inv config parts config' :
  buildSigningParts config = (Ok parts, config') ->
  exists datetime pth host payload,
    assertProps config requiredProps = Ok tt /\
    match passed_date_header (caller_headers config) with
    | Some k => obj_get (caller_headers config) k = Some datetime
    | None => datetime = current_datetime
    end /\
    getPath (endpoint config) (path config) = Ok pth /\
    hostname (endpoint config) = Ok host /\
    match data config with
    | Val v => JSON_stringify v = Ok payload
    | _ => payload = Some []
    end /\
    buildCanonicalRequest (method config) pth (signed_header_set config datetime host)
      (Val (caller_params config)) payload = Ok (canonicalRequest parts) /\
    stringToSign parts =
      buildStringToSign datetime
        (buildCredentialScope datetime (region config) (Val (service_or_default config)))
        (canonicalRequest parts) /\
    signature parts =
      buildSignature
        (buildSigningKey (secretKey config) datetime (region config)
           (Val (service_or_default config)))
        (stringToSign parts) /\
    authHeader parts =
      buildAuthorizationHeader (accessKey config)
        (buildCredentialScope datetime (region config) (Val (service_or_default config)))
        (signed_header_set config datetime host) (signature parts) /\
    parts_headers parts =
      obj_set (signed_header_set config datetime host) AUTHORIZATION (authHeader parts) /\
    headers config' = Val (parts_headers parts) /\
    parts_config parts = config'.
Proof.
  intros Hrun. unfold buildSigningParts in Hrun.
  apply bind_Ok in Hrun as ([] & c & E & Hrun). apply attempt_Ok in E as [Hassert ->].
  apply bind_Ok in Hrun as (u & c & E & Hrun). apply modify_Ok in E. subst c.
  apply bind_Ok in Hrun as (u' & c & E & Hrun). apply modify_Ok in E. subst c.
  apply bind_Ok in Hrun as (u'' & c & E & Hrun). apply modify_Ok in E. subst c.
  destruct (assertValue_defaults config)
    as (Fh & Fq & Fsv & Fm & Fe & Fp & Fd & Fr & Fa & Fs & Ft).
  set (c1 := assertValue serviceName with_serviceName (js "execute-api") _) in *.
  clearbody c1.
  (* the keys *)
  apply bind_Ok in Hrun as (keys & c & E & Hrun).
  apply bind_Ok in E as (h & c' & E & E').
  apply the_headers_Ok in E as [E ->]. apply ret_Ok in E' as [-> ->].
  rewrite Fh in E. injection E as <-.
  (* the timestamp *)
  apply bind_Ok in Hrun as (datetime & c2 & Hdate & Hrun).
  assert (Hc2 : match passed_date_header (caller_headers config) with
                | Some k => obj_get (caller_headers config) k = Some datetime
                | None => datetime = current_datetime
                end /\
                c2 = with_headers
                       (Val (match passed_date_header (caller_headers config) with
                             | Some _ => caller_headers config
                             | None => obj_set (caller_headers config) X_AMZ_DATE datetime
                             end)) c1).
  { unfold passed_date_header.
    destruct (find _ (Object_keys (caller_headers config))) as [k|].
    - apply get_header_Ok in Hdate as (h & E1 & E2 & ->).
      rewrite Fh in E1. injection E1 as <-. split; [assumption|].
      destruct c1; simpl in *; now subst.
    - apply bind_Ok in Hdate as (u0 & c & E1 & E2).
      apply set_header_Ok in E1 as (h & E1 & ->). apply ret_Ok in E2 as [-> ->].
      rewrite Fh in E1. injection E1 as <-. auto. }
  destruct Hc2 as [Hdt ->].
  (* path and host *)
  apply bind_Ok in Hrun as (pth & c & E & Hrun). apply attempt_Ok in E as [Hpath ->].
  apply bind_Ok in Hrun as (host & c & E & Hrun). apply attempt_Ok in E as [Hhost ->].
  simpl in Hpath, Hhost. rewrite Fe in Hhost. rewrite Fe, Fp in Hpath.
  apply bind_Ok in Hrun as (u0 & c3 & E & Hrun).
  apply set_header_Ok in E as (h & E & ->). simpl in E. injection E as <-.
  (* the session token *)
  apply bind_Ok in Hrun as (token & c & E & Hrun). apply reads_Ok in E as [-> ->].
  apply bind_Ok in Hrun as (u1 & c4 & Htok & Hrun).
  simpl in Htok. rewrite Ft in Htok.
  assert (Hc4 : headers c4 = Val (signed_header_set config datetime host) /\
                method c4 = method config /\ params c4 = Val (caller_params config) /\
                region c4 = region config /\ accessKey c4 = accessKey config /\
                secretKey c4 = secretKey config /\
                serviceName c4 = Val (service_or_default config) /\
                data c4 = data config).
  { unfold signed_header_set.
    destruct (sessionToken config) as [| |t].
    - apply ret_Ok in Htok as [_ ->]. simpl. repeat split; assumption.
    - apply ret_Ok in Htok as [_ ->]. simpl. repeat split; assumption.
    - apply set_header_Ok in Htok as (h & E & ->). simpl in E. injection E as <-.
      simpl. repeat split; assumption. }
  clear Htok. destruct Hc4 as (Gh & Gm & Gq & Gr & Ga & Gs & Gsv & Gd).
  clearbody c4 || idtac.
  (* the body *)
  apply bind_Ok in Hrun as (payload & c5 & Hser & Hrun).
  apply serialize_data_Ok in Hser as [Hpayload [d ->]]. rewrite Gd in Hpayload.
  (* the canonical request *)
  apply bind_Ok in Hrun as (cr & c & E & Hrun). apply attempt_Ok in E as [Hcr ->].
  simpl in Hcr. rewrite Gh, Gm, Gq in Hcr. simpl in Hcr.
  apply bind_Ok in Hrun as (cfg & c & E & Hrun). apply reads_Ok in E as [-> ->].
  apply bind_Ok in Hrun as (h & c & E & Hrun). apply the_headers_Ok in E as [E ->].
  simpl in E. rewrite Gh in E. injection E as <-.
  apply bind_Ok in Hrun as (u2 & c6 & E & Hrun).
  apply set_header_Ok in E as (h & E & ->). simpl in E. rewrite Gh in E. injection E as <-.
  apply bind_Ok in Hrun as (cfg & c & E & Hrun). apply reads_Ok in E as [-> ->].
  apply bind_Ok in Hrun as (h & c & E & Hrun). apply the_headers_Ok in E as [E ->].
  simpl in E. injection E as <-.
  apply ret_Ok in Hrun as [-> ->].
  simpl. rewrite Gr, Gs, Ga, Gsv.
  exists datetime, pth, host, payload.
  repeat (split; [first [assumption | reflexivity]|]). reflexivity.
Qed.

End Orchestrator.

(* ================================================================== *)
(** * The headers after signing *)
(* ================================================================== *)

Section SignedHeaders.
Context {P : PrimitiveProvider} {H : JsHost}.

Lemma has_header_iff (lname : jsstring) (h : Headers) :
  has_header lname h = true <->
  exists k, In k (Object_keys h) /\ toLowerCase k = lname.
Proof.
  unfold has_header. rewrite existsb_exists.
  split; intros (k & Hk & E); exists k; split; auto; now apply str_eqb_eq.
Qed.

Lemma signed_header_set_keys config datetime host k :
  In k (Object_keys (signed_header_set config datetime host)) <->
  In k (Object_keys (caller_headers config)) \/
  (passed_date_header (caller_headers config) = None /\ k = X_AMZ_DATE) \/
  k = HOST \/
  (exists t, sessionToken config = Val t /\ k = X_AMZ_SECURITY_TOKEN).
Proof.
  unfold signed_header_set.
  assert (E : forall h0 : Headers,
    In k (Object_keys
      (obj_set (match passed_date_header (caller_headers config) with
                | Some _ => caller_headers config
                | None => obj_set (caller_headers config) X_AMZ_DATE datetime
                end) HOST host)) <->
    In k (Object_keys (caller_headers config)) \/
    (passed_date_header (caller_headers config) = None /\ k = X_AMZ_DATE) \/
    k = HOST).
  { intros _. rewrite obj_set_In_keys.
    destruct (passed_date_header (caller_headers config)).
    - intuition congruence.
    - rewrite obj_set_In_keys. intuition congruence. }
  specialize (E []).
  destruct (sessionToken config) as [| |t].
  - rewrite E. split; [tauto|]. intros [?|[?|[?|(t & D & _)]]]; try tauto. discriminate.
  - rewrite E. split; [tauto|]. intros [?|[?|[?|(t & D & _)]]]; try tauto. discriminate.
  - rewrite obj_set_In_keys, E. split.
    + intros [[?|[?|?]]|?]; eauto 6.
    + intros [?|[?|[?|(t' & _ & ?)]]]; tauto.
Qed.

Hypothesis Hlow : lowercases_ascii H.

Lemma lower_X_AMZ_DATE : toLowerCase X_AMZ_DATE = js "x-amz-date".
Proof. now rewrite Hlow. Qed.

Lemma lower_HOST : toLowerCase HOST = js "host".
Proof. now rewrite Hlow. Qed.

Lemma lower_AUTHORIZATION : toLowerCase AUTHORIZATION = js "authorization".
Proof. now rewrite Hlow. Qed.

Lemma lower_X_AMZ_SECURITY_TOKEN :
  toLowerCase X_AMZ_SECURITY_TOKEN = js "x-amz-security-token".
Proof. now rewrite Hlow. Qed.

(** C9, as amended. After a call that returns, the header mapping of the
    config is the returned one; it holds a date header, a host header and the
    authorization header with the computed value; it holds a security-token
    header when a session token was supplied, and otherwise exactly when the
    caller's own headers held one. *)
Theorem headers_after_signing config parts config' :
  buildSigningParts config = (Ok parts, config') ->
  headers config' = Val (parts_headers parts) /\
  has_header (js "x-amz-date") (parts_headers parts) = true /\
  has_header (js "host") (parts_headers parts) = true /\
  has_header (js "authorization") (parts_headers parts) = true /\
  obj_get (parts_headers parts) AUTHORIZATION = Some (authHeader parts) /\
  (forall t, sessionToken config = Val t ->
     has_header (js "x-amz-security-token") (parts_headers parts) = true) /\
  (is_nullish (sessionToken config) = true ->
     has_header (js "x-amz-security-token") (parts_headers parts) =
     has_header (js "x-amz-security-token") (caller_headers config)).
Proof.
  intros Hrun.
  destruct (buildSigningParts_returns_inv _ Hrun)
    as (datetime & pth & host & payload & _ & Hdt & _ & _ & _ & _ & _ & _ & _ &
        Hfinal & Hcfg & _).
  assert (Hkeys : forall k, In k (Object_keys (parts_headers parts)) <->
            In k (Object_keys (signed_header_set config datetime host)) \/
            k = AUTHORIZATION).
  { intros k. rewrite Hfinal. apply obj_set_In_keys. }
  split; [exact Hcfg|].
  split.
  { apply has_header_iff.
    destruct (passed_date_header (caller_headers config)) as [k0|] eqn:E.
    - unfold passed_date_header in E. apply find_some in E as [Hin Hk].
      apply str_eqb_eq in Hk. exists k0. split; [|exact Hk].
      apply Hkeys. left. apply signed_header_set_keys. now left.
    - exists X_AMZ_DATE. split; [|apply lower_X_AMZ_DATE].
      apply Hkeys. left. apply signed_header_set_keys. right. left. auto. }
  split.
  { apply has_header_iff. exists HOST. split; [|apply lower_HOST].
    apply Hkeys. left. apply signed_header_set_keys. auto. }
  split.
  { apply has_header_iff. exists AUTHORIZATION. split; [|apply lower_AUTHORIZATION].
    apply Hkeys. now right. }
  split.
  { rewrite Hfinal. apply obj_get_set_same. }
  split.
  { intros t Ht. apply has_header_iff. exists X_AMZ_SECURITY_TOKEN.
    split; [|apply lower_X_AMZ_SECURITY_TOKEN].
    apply Hkeys. left. apply signed_header_set_keys. right. right. right. eauto. }
  intros Hnull.
  destruct (has_header (js "x-amz-security-token") (caller_headers config)) eqn:E.
  - apply has_header_iff in E as (k & Hin & Hk). apply has_header_iff.
    exists k. split; [|exact Hk].
    apply Hkeys. left. apply signed_header_set_keys. now left.
  - destruct (has_header (js "x-amz-security-token") (parts_headers parts)) eqn:F;
      [|reflexivity].
    apply has_header_iff in F as (k & Hin & Hk).
    apply Hkeys in Hin as [Hin| ->].
    + apply signed_header_set_keys in Hin as [Hin|[[_ ->]|[->|(t & Ht & _)]]].
      * assert (G : has_header (js "x-amz-security-token") (caller_headers config) = true)
          by (apply has_header_iff; eauto).
        congruence.
      * rewrite lower_X_AMZ_DATE in Hk. discriminate.
      * rewrite lower_HOST in Hk. discriminate.
      * rewrite Ht in Hnull. discriminate.
    + rewrite lower_AUTHORIZATION in Hk. discriminate.
Qed.

End SignedHeaders.

(* ================================================================== *)
(** * The authorization header *)
(* ================================================================== *)

Section Authorization.
Context {P : PrimitiveProvider} {H : JsHost}.

Lemma buildCanonicalRequest_Ok_inv method path headers queryParams payload cr :
  buildCanonicalRequest method path headers (Val queryParams) payload = Ok cr ->
  exists m uri qs,
    method = Val m /\
    buildCanonicalUri path = Ok uri /\
    buildCanonicalQueryString queryParams = Ok qs /\
    cr = toUpperCase m ++ LF ++ uri ++ LF ++ qs ++ LF ++
         buildCanonicalHeaders headers ++ LF ++
         buildCanonicalSignedHeaders headers ++ LF ++
         buildHashedPayload (match payload with Some s => s | None => [] end).
Proof.
  unfold buildCanonicalRequest. intros E.
  destruct method as [| |m]; try discriminate. simpl in E.
  destruct (buildCanonicalUri path) as [uri|]; try discriminate. simpl in E.
  destruct (buildCanonicalQueryString queryParams) as [qs|]; try discriminate.
  simpl in E. injection E as <-. exists m, uri, qs. auto.
Qed.

(** C1, as amended. The returned authorization header is the algorithm
    name, Credential= with the access key and the credential scope,
    SignedHeaders= with the signed-headers list and Signature= with the
    signature.  The list is computed over the header mapping as it stands
    after the date, host and security-token headers were set and before the
    authorization header is inserted; the canonical request was built over
    the same mapping, and the list is its fifth component of six, the
    components being joined by line feeds and the fourth, the canonical
    headers, holding one line per header. *)
Theorem authorization_header_template config parts config' :
  buildSigningParts config = (Ok parts, config') ->
  exists datetime host signedHeaders credentialScope,
    match passed_date_header (caller_headers config) with
    | Some k => obj_get (caller_headers config) k = Some datetime
    | None => datetime = current_datetime
    end /\
    hostname (endpoint config) = Ok host /\
    signedHeaders =
      buildCanonicalSignedHeaders (signed_header_set config datetime host) /\
    credentialScope =
      buildCredentialScope datetime (region config) (Val (service_or_default config)) /\
    authHeader parts =
      js "AWS4-HMAC-SHA256 Credential=" ++ ToString (accessKey config) ++ js "/" ++
      credentialScope ++ js ", SignedHeaders=" ++ signedHeaders ++
      js ", Signature=" ++ signature parts /\
    (exists m pth uri qs payload,
       method config = Val m /\
       getPath (endpoint config) (path config) = Ok pth /\
       buildCanonicalUri pth = Ok uri /\
       buildCanonicalQueryString (caller_params config) = Ok qs /\
       match data config with
       | Val v => JSON_stringify v = Ok payload
       | _ => payload = Some []
       end /\
       canonicalRequest parts =
         toUpperCase m ++ LF ++ uri ++ LF ++ qs ++ LF ++
         buildCanonicalHeaders (signed_header_set config datetime host) ++ LF ++
         signedHeaders ++ LF ++
         buildHashedPayload (match payload with Some s => s | None => [] end)) /\
    stringToSign parts =
      buildStringToSign datetime credentialScope (canonicalRequest parts) /\
    signature parts =
      buildSignature
        (buildSigningKey (secretKey config) datetime (region config)
           (Val (service_or_default config)))
        (stringToSign parts) /\
    parts_headers parts =
      obj_set (signed_header_set config datetime host) AUTHORIZATION (authHeader parts).
Proof.
  intros Hrun.
  destruct (buildSigningParts_returns_inv _ Hrun)
    as (datetime & pth & host & payload & _ & Hdt & Hpath & Hhost & Hpl & Hcr &
        Hsts & Hsig & Hauth & Hfinal & _).
  apply buildCanonicalRequest_Ok_inv in Hcr as (m & uri & qs & Hm & Huri & Hqs & Hcr).
  exists datetime, host,
    (buildCanonicalSignedHeaders (signed_header_set config datetime host)),
    (buildCredentialScope datetime (region config) (Val (service_or_default config))).
  split; [exact Hdt|]. split; [exact Hhost|].
  split; [reflexivity|]. split; [reflexivity|].
  split; [rewrite Hauth; reflexivity|].
  split; [exists m, pth, uri, qs, payload; auto 10|].
  split; [exact Hsts|]. split; [exact Hsig|]. exact Hfinal.
Qed.

(** C8. When a required property is undefined the call throws the message
    that names such a property, before anything was written: the config, its
    header mapping included, is as it was, and neither entry point returns. *)
Theorem missing_property_rejected config :
  (exists p, In p requiredProps /\ get_prop config p = Undefined) ->
  exists p,
    In p requiredProps /\ get_prop config p = Undefined /\
    buildSigningParts config =
      (Throw (ThrownString
                (js "[SigV4]: missing config property '" ++ prop_name p ++ js "'")),
       config) /\
    sign config =
      (Throw (ThrownString
                (js "[SigV4]: missing config property '" ++ prop_name p ++ js "'")),
       config).
Proof.
  intros Hmiss.
  assert (Ha : exists p, In p requiredProps /\ get_prop config p = Undefined /\
             assertProps config requiredProps =
               Throw (ThrownString (missing_property_message p))).
  { generalize requiredProps Hmiss. clear Hmiss.
    induction l as [|q l IH]; intros (p & Hin & Hp); [destruct Hin|].
    simpl. destruct (get_prop config q) eqn:E.
    - exists q. simpl. auto.
    - destruct Hin as [->|Hin]; [congruence|].
      destruct IH as (p' & Hin' & Hp' & Ha); [eauto|]. exists p'. simpl. auto.
    - destruct Hin as [->|Hin]; [congruence|].
      destruct IH as (p' & Hin' & Hp' & Ha); [eauto|]. exists p'. simpl. auto. }
  destruct Ha as (p & Hin & Hp & Ha). exists p.
  assert (Hb : buildSigningParts config =
               (Throw (ThrownString (missing_property_message p)), config)).
  { unfold buildSigningParts. unfold bind at 1. unfold attempt at 1. now rewrite Ha. }
  split; [exact Hin|]. split; [exact Hp|]. split; [exact Hb|].
  unfold sign, bind. now rewrite Hb.
Qed.

Lemma assertProps_Ok_iff (config : ISignRequestConfig) (props : list prop) :
  assertProps config props = Ok tt <->
  forall p, In p props -> get_prop config p <> Undefined.
Proof.
  induction props as [|q l IH]; simpl.
  - split; [intros _ p []|reflexivity].
  - destruct (get_prop config q) eqn:E; simpl.
    + split; [discriminate|]. intros Hall. exfalso. now apply (Hall q); auto.
    + rewrite IH. split.
      * intros Hall p [->|Hin]; [congruence|auto].
      * intros Hall p Hin. auto.
    + rewrite IH. split.
      * intros Hall p [->|Hin]; [congruence|auto].
      * intros Hall p Hin. auto.
Qed.

End Authorization.

(* ================================================================== *)
(** * Stepping through the orchestrator *)
(* ================================================================== *)

Section Returns.
Context {P : PrimitiveProvider} {H : JsHost}.

Lemma bind_step {A B} (m : M A) (k : A -> M B) c a c1 :
  m c = (Ok a, c1) -> bind m k c = k a c1.
Proof. unfold bind. now intros ->. Qed.

End Returns.

(* ================================================================== *)
(** * Runs of the model *)
(* ================================================================== *)

Lemma ascii_host_lowercases : lowercases_ascii ascii_host.
Proof. intros s _. reflexivity. Qed.

(** A call on a concrete config: reduce the outcome and name its parts. *)
Ltac run_model E :=
  vm_compute in E; first [discriminate E | injection E as <- <-].

Lemma vanilla_returns (P : PrimitiveProvider) :
  exists parts config',
    @buildSigningParts P ascii_host vanilla_config = (Ok parts, config').
Proof.
  destruct (@buildSigningParts P ascii_host vanilla_config) as [[parts|e] c] eqn:E;
    [eauto|]. exfalso. vm_compute in E. discriminate E.
Qed.

Lemma bare_returns (P : PrimitiveProvider) :
  exists parts config',
    @buildSigningParts P ascii_host bare_config = (Ok parts, config').
Proof.
  destruct (@buildSigningParts P ascii_host bare_config) as [[parts|e] c] eqn:E;
    [eauto|]. exfalso. vm_compute in E. discriminate E.
Qed.

(** The bare config: the defaults are written into the config, the clock
    gives the timestamp, the port stays out of the host header, the token is
    set and the body is serialized. *)
Lemma bare_run_headers :
  exists parts config',
    @buildSigningParts checksum_provider ascii_host bare_config = (Ok parts, config') /\
    Object_keys (parts_headers parts) =
      [js "x-amz-date"; js "Host"; js "x-amz-security-token"; js "Authorization"] /\
    obj_get (parts_headers parts) (js "x-amz-date") = Some (js "20150830T123600Z") /\
    obj_get (parts_headers parts) (js "Host") = Some (js "api.example.com") /\
    params config' = Val [] /\
    serviceName config' = Val (js "execute-api") /\
    lines (canonicalRequest parts) =
      [js "POST"; js "/v1/items"; [];
       js "host:api.example.com"; js "x-amz-date:20150830T123600Z";
       js "x-amz-security-token:TOKEN"; [];
       js "host;x-amz-date;x-amz-security-token"; js "0073f625"].
Proof.
  destruct (bare_returns checksum_provider) as (parts & c & E).
  exists parts, c. split; [exact E|]. run_model E.
  vm_compute. repeat split.
Qed.

(** The stale security token stays, whatever the provider. *)
Lemma stale_token_any_provider (P : PrimitiveProvider) :
  exists parts config',
    @buildSigningParts P ascii_host stale_token_config = (Ok parts, config') /\
    Object_keys (parts_headers parts) =
      [js "x-amz-date"; js "x-amz-security-token"; js "Host"; js "Authorization"].
Proof.
  destruct (@buildSigningParts P ascii_host stale_token_config) as [[parts|e] c] eqn:E.
  - exists parts, c. split; [reflexivity|]. run_model E. reflexivity.
  - exfalso. vm_compute in E. discriminate E.
Qed.

(* ================================================================== *)
(** * Where the specification and the code part *)
(* ================================================================== *)

(** C1, against the statement as written.  In the get-vanilla request the fifth
    line of the canonical request is the second canonical header and the
    signed-headers list is the seventh line; and the list of the header is
    not the one of the returned header mapping, which holds the authorization
    header too. *)
Lemma signed_headers_not_fifth_line :
  exists parts config',
    @buildSigningParts checksum_provider ascii_host vanilla_config = (Ok parts, config') /\
    lines (canonicalRequest parts) =
      [js "GET"; js "/"; [];
       js "host:example.amazonaws.com"; js "x-amz-date:20150830T123600Z"; [];
       js "host;x-amz-date"; js "00000007"] /\
    authHeader parts =
      js "AWS4-HMAC-SHA256 Credential=AKIDEXAMPLE/20150830/us-east-1/service/aws4_request, SignedHeaders=host;x-amz-date, Signature=ebe26428" /\
    authHeader parts <>
      js "AWS4-HMAC-SHA256 Credential=AKIDEXAMPLE/20150830/us-east-1/service/aws4_request, SignedHeaders=" ++
      nth 4 (lines (canonicalRequest parts)) [] ++ js ", Signature=" ++ signature parts /\
    authHeader parts <>
      js "AWS4-HMAC-SHA256 Credential=AKIDEXAMPLE/20150830/us-east-1/service/aws4_request, SignedHeaders=" ++
      @buildCanonicalSignedHeaders ascii_host (parts_headers parts) ++
      js ", Signature=" ++ signature parts.
Proof.
  destruct (vanilla_returns checksum_provider) as (parts & c & E).
  exists parts, c. split; [exact E|]. run_model E.
  split; [vm_compute; reflexivity|]. split; [vm_compute; reflexivity|].
  split; apply str_eqb_neq; vm_compute; reflexivity.
Qed.

Lemma authorization_header_template_witness :
  exists parts config',
    @buildSigningParts checksum_provider ascii_host vanilla_config = (Ok parts, config') /\
    exists datetime host signedHeaders credentialScope,
      match @passed_date_header ascii_host (caller_headers vanilla_config) with
      | Some k => obj_get (caller_headers vanilla_config) k = Some datetime
      | None => datetime = @current_datetime ascii_host
      end /\
      @hostname ascii_host (endpoint vanilla_config) = Ok host /\
      signedHeaders =
        @buildCanonicalSignedHeaders ascii_host
          (signed_header_set vanilla_config datetime host) /\
      credentialScope =
        buildCredentialScope datetime (region vanilla_config)
          (Val (service_or_default vanilla_config)) /\
      authHeader parts =
        js "AWS4-HMAC-SHA256 Credential=" ++ ToString (accessKey vanilla_config) ++
        js "/" ++ credentialScope ++ js ", SignedHeaders=" ++ signedHeaders ++
        js ", Signature=" ++ signature parts /\
      (exists m pth uri qs payload,
         method vanilla_config = Val m /\
         @getPath ascii_host (endpoint vanilla_config) (path vanilla_config) = Ok pth /\
         buildCanonicalUri pth = Ok uri /\
         buildCanonicalQueryString (caller_params vanilla_config) = Ok qs /\
         match data vanilla_config with
         | Val v => @JSON_stringify ascii_host v = Ok payload
         | _ => payload = Some []
         end /\
         canonicalRequest parts =
           @toUpperCase ascii_host m ++ LF ++ uri ++ LF ++ qs ++ LF ++
           @buildCanonicalHeaders ascii_host
             (signed_header_set vanilla_config datetime host) ++ LF ++
           signedHeaders ++ LF ++
           @buildHashedPayload checksum_provider ascii_host
             (match payload with Some s => s | None => [] end)) /\
      stringToSign parts =
        @buildStringToSign checksum_provider ascii_host datetime credentialScope
          (canonicalRequest parts) /\
      signature parts =
        @buildSignature checksum_provider
          (@buildSigningKey checksum_provider (secretKey vanilla_config) datetime
             (region vanilla_config) (Val (service_or_default vanilla_config)))
          (stringToSign parts) /\
      parts_headers parts =
        obj_set (signed_header_set vanilla_config datetime host) AUTHORIZATION
          (authHeader parts).
Proof.
  destruct (vanilla_returns checksum_provider) as (parts & c & E).
  exists parts, c. split; [exact E|].
  exact (@authorization_header_template checksum_provider ascii_host
           vanilla_config parts c E).
Defined.


(** C9, against the statement as written.  The caller's headers hold a security
    token and the config no session token: the header mapping after signing
    holds the security-token header. *)
Lemma stale_security_token_kept :
  exists parts config',
    @buildSigningParts checksum_provider ascii_host stale_token_config = (Ok parts, config') /\
    sessionToken stale_token_config = Undefined /\
    In (js "x-amz-security-token") (Object_keys (parts_headers parts)) /\
    @has_header ascii_host (js "x-amz-security-token") (parts_headers parts) = true /\
    ~ (@has_header ascii_host (js "x-amz-security-token") (parts_headers parts) = true <->
       exists t, sessionToken stale_token_config = Val t).
Proof.
  destruct (stale_token_any_provider checksum_provider) as (parts & c & E & K).
  exists parts, c. split; [exact E|]. split; [reflexivity|].
  assert (Hin : In (js "x-amz-security-token") (Object_keys (parts_headers parts))).
  { rewrite K. simpl. auto. }
  assert (Hh : @has_header ascii_host (js "x-amz-security-token") (parts_headers parts) = true).
  { unfold has_header. rewrite K. vm_compute. reflexivity. }
  split; [exact Hin|]. split; [exact Hh|].
  intros [Hc _]. destruct (Hc Hh) as (t & Ht). discriminate Ht.
Qed.

Lemma headers_after_signing_witness :
  lowercases_ascii ascii_host /\
  exists parts config',
    @buildSigningParts checksum_provider ascii_host bare_config = (Ok parts, config') /\
    (headers config' = Val (parts_headers parts) /\
     @has_header ascii_host (js "x-amz-date") (parts_headers parts) = true /\
     @has_header ascii_host (js "host") (parts_headers parts) = true /\
     @has_header ascii_host (js "authorization") (parts_headers parts) = true /\
     obj_get (parts_headers parts) AUTHORIZATION = Some (authHeader parts) /\
     (forall t, sessionToken bare_config = Val t ->
        @has_header ascii_host (js "x-amz-security-token") (parts_headers parts) = true) /\
     (is_nullish (sessionToken bare_config) = true ->
        @has_header ascii_host (js "x-amz-security-token") (parts_headers parts) =
        @has_header ascii_host (js "x-amz-security-token") (caller_headers bare_config))).
Proof.
  split; [exact ascii_host_lowercases|].
  destruct (bare_returns checksum_provider) as (parts & c & E).
  exists parts, c. split; [exact E|].
  exact (@headers_after_signing checksum_provider ascii_host ascii_host_lowercases
           bare_config parts c E).
Defined.

Lemma missing_property_rejected_witness :
  (exists p, In p requiredProps /\
             get_prop (with_secretKey Undefined vanilla_config) p = Undefined) /\
  exists p,
    In p requiredProps /\
    get_prop (with_secretKey Undefined vanilla_config) p = Undefined /\
    @buildSigningParts checksum_provider ascii_host
        (with_secretKey Undefined vanilla_config) =
      (Throw (ThrownString
                (js "[SigV4]: missing config property '" ++ prop_name p ++ js "'")),
       with_secretKey Undefined vanilla_config) /\
    @sign checksum_provider ascii_host (with_secretKey Undefined vanilla_config) =
      (Throw (ThrownString
                (js "[SigV4]: missing config property '" ++ prop_name p ++ js "'")),
       with_secretKey Undefined vanilla_config).
Proof.
  assert (Hm : exists p, In p requiredProps /\
                 get_prop (with_secretKey Undefined vanilla_config) p = Undefined).
  { exists P_secretKey. split; [simpl; tauto|reflexivity]. }
  split; [exact Hm|].
  exact (@missing_property_rejected checksum_provider ascii_host
           (with_secretKey Undefined vanilla_config) Hm).
Defined.

(** The config without a secret key names [secretKey] in the message. *)
Lemma missing_secretKey_message :
  @buildSigningParts checksum_provider ascii_host
      (with_secretKey Undefined vanilla_config) =
    (Throw (ThrownString (js "[SigV4]: missing config property 'secretKey'")),
     with_secretKey Undefined vanilla_config).
Proof. vm_compute. reflexivity. Qed.

(** C10. Validation passes exactly when no required property is undefined:
    null and the empty string pass.  With a null secret key the get-vanilla
    request is signed, for every provider, as with the secret key "null"; with
    the empty secret key it is signed too. *)
Theorem null_and_empty_pass_validation :
  (forall (H : JsHost) (config : @ISignRequestConfig H),
     assertProps config requiredProps = Ok tt <->
     (forall p, In p requiredProps -> get_prop config p <> Undefined)) /\
  (forall P : PrimitiveProvider,
     assertProps (with_secretKey Null vanilla_config) requiredProps = Ok tt /\
     exists parts config',
       @buildSigningParts P ascii_host (with_secretKey Null vanilla_config) =
         (Ok parts, config') /\
       secretKey config' = Null /\
       signature parts =
         buildSignature
           (buildSigningKey (Val (js "null")) (js "20150830T123600Z")
              (Val (js "us-east-1")) (Val (js "service")))
           (stringToSign parts)) /\
  (forall P : PrimitiveProvider,
     assertProps (with_secretKey (Val []) vanilla_config) requiredProps = Ok tt /\
     exists parts config',
       @buildSigningParts P ascii_host (with_secretKey (Val []) vanilla_config) =
         (Ok parts, config') /\
       signature parts =
         buildSignature
           (buildSigningKey (Val []) (js "20150830T123600Z")
              (Val (js "us-east-1")) (Val (js "service")))
           (stringToSign parts)).
Proof.
  split; [intros H config; apply assertProps_Ok_iff|].
  split; intros P; (split; [reflexivity|]).
  - destruct (@buildSigningParts P ascii_host (with_secretKey Null vanilla_config))
      as [[parts|e] c] eqn:E.
    + exists parts, c. split; [reflexivity|]. run_model E.
      split; vm_compute; reflexivity.
    + exfalso. vm_compute in E. discriminate E.
  - destruct (@buildSigningParts P ascii_host (with_secretKey (Val []) vanilla_config))
      as [[parts|e] c] eqn:E.
    + exists parts, c. split; [reflexivity|]. run_model E.
      vm_compute; reflexivity.
    + exfalso. vm_compute in E. discriminate E.
Qed.

(** C4, the defect.  The name of a parameter is written as it is and only
    the value is percent-encoded, where the specification encodes both; the
    five marks are escaped with lower-case hex digits; no parameter gives the
    empty string. *)
Theorem query_name_not_encoded :
  buildCanonicalQueryString [(js "a b", js "c d")] = Ok (js "a b=c%20d") /\
  spec_canonical_query_string [(js "a b", js "c d")] = Ok (js "a%20b=c%20d") /\
  buildCanonicalQueryString [(js "k", js "!'()*")] = Ok (js "k=%21%27%28%29%2a") /\
  buildCanonicalQueryString [] = Ok [] /\
  (forall queryParams,
     (forall e, In e queryParams -> fixedEncodeURIComponent (fst e) = Ok (fst e)) ->
     buildCanonicalQueryString queryParams = spec_canonical_query_string queryParams).
Proof.
  split; [vm_compute; reflexivity|]. split; [vm_compute; reflexivity|].
  split; [vm_compute; reflexivity|]. split; [reflexivity|].
  intros q Hq. rewrite buildCanonicalQueryString_eq. unfold spec_canonical_query_string.
  f_equal.
  assert (Hs : forall e, In e (Array_sort compare_entries q) ->
                 fixedEncodeURIComponent (fst e) = Ok (fst e)).
  { intros e He. apply Hq. eapply Permutation_in; [|exact He].
    apply Permutation_sym, Array_sort_perm. }
  induction (Array_sort compare_entries q) as [|e l IH]; [reflexivity|].
  simpl. rewrite IH by (intros; apply Hs; now right).
  f_equal. unfold query_segment, spec_query_segment, rmap.
  rewrite (Hs e) by now left. reflexivity.
Qed.

(* ================================================================== *)
(** * Further properties of the pipeline *)
(* ================================================================== *)

Lemma str_le_cases (a b : jsstring) : str_le a b <-> str_ltb a b = true \/ a = b.
Proof.
  unfold str_le. split.
  - intros E. destruct (str_ltb a b) eqn:F; [now left|right].
    now apply str_ltb_total.
  - intros [E| ->]; [now apply str_ltb_asym|apply str_ltb_irrefl].
Qed.

Lemma str_le_trans (a b c : jsstring) : str_le a b -> str_le b c -> str_le a c.
Proof.
  rewrite !str_le_cases. intros [E| ->] [F| ->]; auto.
  left. eapply str_ltb_trans; eassumption.
Qed.

Lemma default_compare_le (a b : jsstring) : (default_compare a b <= 0)%Z -> str_le a b.
Proof.
  unfold default_compare, str_le. destruct (str_ltb a b) eqn:E.
  - intros _. now apply str_ltb_asym.
  - destruct (str_ltb b a); [lia|reflexivity].
Qed.

Lemma default_compare_gt (a b : jsstring) : (0 < default_compare a b)%Z -> str_le b a.
Proof.
  unfold default_compare, str_le. destruct (str_ltb a b) eqn:E; [lia|reflexivity].
Qed.

Section Further.
Context {P : PrimitiveProvider} {H : JsHost}.

(** X2. The signed-headers list is the lower-cased header names, sorted
    ascending on the lower-cased form and joined with semicolons. *)
Theorem signed_headers_list (headers : Headers) :
  exists sorted,
    Permutation (map toLowerCase (Object_keys headers)) sorted /\
    StronglySorted str_le sorted /\
    buildCanonicalSignedHeaders headers = join (js ";") sorted.
Proof.
  exists (Array_sort default_compare (map toLowerCase (Object_keys headers))).
  split; [apply Array_sort_perm|]. split; [|reflexivity].
  apply Sorted_StronglySorted.
  - intros a b c. apply str_le_trans.
  - apply Array_sort_sorted; [apply default_compare_le|apply default_compare_gt].
Qed.

(** X3. With no body supplied (the data undefined or null) the canonical
    request ends, after a line feed, with the lower-cased hex SHA-256 digest
    of the empty string. *)
Theorem empty_payload_hash config parts config' :
  buildSigningParts config = (Ok parts, config') ->
  is_nullish (data config) = true ->
  exists prefix,
    canonicalRequest parts = prefix ++ LF ++ toLowerCase (enc_Hex (SHA256 [])).
Proof.
  intros Hrun Hnull.
  destruct (buildSigningParts_returns_inv _ Hrun)
    as (datetime & pth & host & payload & _ & _ & _ & _ & Hpl & Hcr & _).
  apply buildCanonicalRequest_Ok_inv in Hcr as (m & uri & qs & _ & _ & _ & Hcr).
  assert (Hp : payload = Some []).
  { destruct (data config); [assumption|assumption|discriminate]. }
  subst payload.
  exists (toUpperCase m ++ LF ++ uri ++ LF ++ qs ++ LF ++
          buildCanonicalHeaders (signed_header_set config datetime host) ++ LF ++
          buildCanonicalSignedHeaders (signed_header_set config datetime host)).
  rewrite Hcr. unfold buildHashedPayload, hexEncode, hash.
  now rewrite <- !app_assoc.
Qed.

End Further.

Lemma empty_payload_hash_witness :
  is_nullish (data vanilla_config) = true /\
  exists parts config',
    @buildSigningParts checksum_provider ascii_host vanilla_config = (Ok parts, config') /\
    exists prefix,
      canonicalRequest parts =
      prefix ++ LF ++
      @toLowerCase ascii_host (@enc_Hex checksum_provider (@SHA256 checksum_provider [])).
Proof.
  split; [reflexivity|].
  destruct (vanilla_returns checksum_provider) as (parts & c & E).
  exists parts, c. split; [exact E|].
  exact (@empty_payload_hash checksum_provider ascii_host vanilla_config parts c E eq_refl).
Defined.

(* ================================================================== *)
(** * Percent-encoding: when it throws and what it writes *)
(* ================================================================== *)

Lemma uriUnescaped_ascii (c : code_unit) : uriUnescaped c = true -> (c < 128)%N.
Proof.
  unfold uriUnescaped, is_alpha, is_digit, mem_str. simpl existsb.
  rewrite !orb_true_iff, !andb_true_iff, !N.leb_le, !N.eqb_eq. lia.
Qed.

Lemma encodeURI_keep_ascii (c : code_unit) : encodeURI_keep c = true -> (c < 128)%N.
Proof.
  unfold encodeURI_keep. rewrite !orb_true_iff. intros [[Hc|Hc]|Hc].
  - revert Hc. unfold uriReserved, mem_str. simpl existsb.
    rewrite !orb_true_iff, !N.eqb_eq. lia.
  - now apply uriUnescaped_ascii.
  - apply N.eqb_eq in Hc. lia.
Qed.

Lemma ascii_not_surrogate (c : code_unit) :
  (c < 128)%N -> is_high_surrogate c = false /\ is_low_surrogate c = false.
Proof.
  intros Hc. unfold is_high_surrogate, is_low_surrogate.
  split; apply andb_false_iff; left; apply N.leb_gt; lia.
Qed.

Section EncodeThrows.
Variable keep : code_unit -> bool.
Hypothesis keep_ascii : forall c, keep c = true -> (c < 128)%N.

(** [Encode] returns on the well-paired strings and throws a URIError on
    the others. *)
Lemma Encode_well_paired (s : jsstring) :
  (well_paired s = true -> exists out, Encode keep s = Ok out) /\
  (well_paired s = false -> Encode keep s = Throw URIError).
Proof.
  induction s as [|x|x y s IHs IHy] using list_pair_ind.
  - split; [now exists []|discriminate].
  - simpl. destruct (keep x) eqn:K.
    + destruct (ascii_not_surrogate (@keep_ascii _ K)) as [-> ->].
      split; [simpl; eauto|discriminate].
    + destruct (is_low_surrogate x); [split; [discriminate|reflexivity]|].
      destruct (is_high_surrogate x); [split; [discriminate|reflexivity]|].
      split; [simpl; eauto|discriminate].
  - cbn [Encode well_paired]. cbn [Encode well_paired] in IHy.
    destruct IHs as [IHs1 IHs2], IHy as [IHy1 IHy2].
    destruct (keep x) eqn:K.
    + destruct (ascii_not_surrogate (@keep_ascii _ K)) as [-> ->].
      split; intros Hw.
      * destruct (IHy1 Hw) as (out & ->). simpl. eauto.
      * now rewrite (IHy2 Hw).
    + destruct (is_low_surrogate x); [split; [discriminate|reflexivity]|].
      destruct (is_high_surrogate x).
      * destruct (is_low_surrogate y); simpl; [|split; [discriminate|reflexivity]].
        split; intros Hw.
        -- destruct (IHs1 Hw) as (out & ->). simpl. eauto.
        -- now rewrite (IHs2 Hw).
      * split; intros Hw.
        -- destruct (IHy1 Hw) as (out & ->). simpl. eauto.
        -- now rewrite (IHy2 Hw).
Qed.

End EncodeThrows.

Lemma map_result_throws {A B} (f : A -> result B) (l : list A) (e : exn) :
  (forall x, In x l -> (exists y, f x = Ok y) \/ f x = Throw e) ->
  (exists x, In x l /\ f x = Throw e) ->
  map_result f l = Throw e.
Proof.
  induction l as [|x l IH]; intros Hall (z & Hz & Ez); [destruct Hz|].
  simpl. destruct (Hall x (or_introl eq_refl)) as [(y & Ey)|Ey].
  - rewrite Ey. simpl. destruct Hz as [->|Hz]; [congruence|].
    rewrite IH; [reflexivity| |eauto]. intros w Hw. apply Hall. now right.
  - now rewrite Ey.
Qed.

(** X5. [fixedEncodeURIComponent] returns exactly on the strings whose
    surrogates are paired and throws a URIError on every other string; so does
    the canonical URI of a path. *)
Theorem percent_encoding_throws_on_lone_surrogates (str : jsstring) :
  (well_paired str = true -> exists out, fixedEncodeURIComponent str = Ok out) /\
  (well_paired str = false -> fixedEncodeURIComponent str = Throw URIError) /\
  (well_paired str = true -> exists uri, buildCanonicalUri (Val str) = Ok uri) /\
  (well_paired str = false -> buildCanonicalUri (Val str) = Throw URIError).
Proof.
  destruct (Encode_well_paired uriUnescaped uriUnescaped_ascii str) as [U1 U2].
  destruct (Encode_well_paired encodeURI_keep encodeURI_keep_ascii str) as [E1 E2].
  unfold fixedEncodeURIComponent, encodeURIComponent.
  repeat split; intros Hw.
  - destruct (U1 Hw) as (out & ->). simpl. eauto.
  - now rewrite (U2 Hw).
  - destruct str as [|c p]; [now exists (js "/")|]. exact (E1 Hw).
  - destruct str as [|c p]; [discriminate|]. exact (E2 Hw).
Qed.

(** X6. The canonical query string is returned exactly when the surrogates
    of every value are paired, whatever the names are; a value with a lone
    surrogate makes the call throw a URIError. *)
Theorem canonical_query_string_throws (queryParams : QueryParams) :
  ((forall e, In e queryParams -> well_paired (snd e) = true) ->
   exists qs, buildCanonicalQueryString queryParams = Ok qs) /\
  ((exists e, In e queryParams /\ well_paired (snd e) = false) ->
   buildCanonicalQueryString queryParams = Throw URIError).
Proof.
  pose proof (Array_sort_perm compare_entries queryParams) as Hp.
  assert (Hseg : forall e, (well_paired (snd e) = true -> exists y, query_segment e = Ok y) /\
                           (well_paired (snd e) = false -> query_segment e = Throw URIError)).
  { intros e. unfold query_segment, fixedEncodeURIComponent, encodeURIComponent.
    destruct (Encode_well_paired uriUnescaped uriUnescaped_ascii (snd e)) as [U1 U2].
    split; intros Hw.
    - destruct (U1 Hw) as (out & ->). simpl. eauto.
    - now rewrite (U2 Hw). }
  rewrite buildCanonicalQueryString_eq. split.
  - intros Hall.
    destruct (map_result_returns query_segment (Array_sort compare_entries queryParams))
      as (ys & ->); [|simpl; eauto].
    intros e He. apply Hseg, Hall. eapply Permutation_in; [|exact He].
    now apply Permutation_sym.
  - intros (e & He & Hw).
    rewrite (@map_result_throws _ _ query_segment _ URIError); [reflexivity| |].
    + intros x _. destruct (well_paired (snd x)) eqn:Wx.
      * left. now apply Hseg.
      * right. now apply Hseg.
    + exists e. split; [eapply Permutation_in; eassumption|now apply Hseg].
Qed.

(* ------------------------------------------------------------------ *)
(** ** The alphabet of the output *)

Lemma upper_hex_digit_hex (n : N) : (n < 16)%N -> is_upper_hex (upper_hex_digit n) = true.
Proof.
  intros Hn. unfold is_upper_hex, is_digit, upper_hex_digit.
  destruct (N.ltb_spec n 10).
  - apply orb_true_iff. left. apply andb_true_iff. rewrite !N.leb_le. lia.
  - apply orb_true_iff. right. apply andb_true_iff. rewrite !N.leb_le. lia.
Qed.

Lemma pct_chars (b : N) :
  (b < 256)%N -> Forall (fun c => c = 37%N \/ is_upper_hex c = true) (pct b).
Proof.
  intros Hb. unfold pct.
  assert (b / 16 < 16)%N by (apply N.Div0.div_lt_upper_bound; lia).
  assert (b mod 16 < 16)%N by (apply N.mod_lt; lia).
  constructor; [now left|].
  constructor; [right; now apply upper_hex_digit_hex|].
  constructor; [right; now apply upper_hex_digit_hex|constructor].
Qed.

Lemma utf8_octets (cp : N) : (cp < 1114112)%N -> Forall (fun b => (b < 256)%N) (utf8 cp).
Proof.
  intros Hcp. unfold utf8.
  assert (cp mod 64 < 64)%N by (apply N.mod_lt; lia).
  assert ((cp / 64) mod 64 < 64)%N by (apply N.mod_lt; lia).
  assert ((cp / 4096) mod 64 < 64)%N by (apply N.mod_lt; lia).
  destruct (N.ltb_spec cp 128).
  { constructor; [lia|constructor]. }
  destruct (N.ltb_spec cp 2048).
  { assert (cp / 64 < 32)%N by (apply N.Div0.div_lt_upper_bound; lia).
    constructor; [lia|]. constructor; [lia|constructor]. }
  destruct (N.ltb_spec cp 65536).
  { assert (cp / 4096 < 16)%N by (apply N.Div0.div_lt_upper_bound; lia).
    constructor; [lia|]. constructor; [lia|]. constructor; [lia|constructor]. }
  assert (cp / 262144 < 5)%N by (apply N.Div0.div_lt_upper_bound; lia).
  constructor; [lia|]. constructor; [lia|]. constructor; [lia|].
  constructor; [lia|constructor].
Qed.

Lemma pct_utf8_hex (cp : N) :
  (cp < 1114112)%N -> Forall (fun c => c = 37%N \/ is_upper_hex c = true) (pct_utf8 cp).
Proof.
  intros Hcp. unfold pct_utf8. pose proof (utf8_octets Hcp) as Ho.
  induction Ho as [|b l Hb Hl IH]; cbn [flat_map]; [constructor|].
  apply Forall_app. split; [now apply pct_chars|exact IH].
Qed.

Lemma surrogate_pair_bound (hi lo : code_unit) :
  is_high_surrogate hi = true -> is_low_surrogate lo = true ->
  (surrogate_pair hi lo < 1114112)%N.
Proof.
  unfold is_high_surrogate, is_low_surrogate, surrogate_pair.
  rewrite !andb_true_iff, !N.leb_le. lia.
Qed.

(** On code units, the output of [Encode] is made of kept code units,
    percent signs and upper-case hex digits. *)
Lemma Encode_alphabet (keep : code_unit -> bool) (s out : jsstring) :
  code_units s = true -> Encode keep s = Ok out ->
  Forall (fun c => keep c = true \/ c = 37%N \/ is_upper_hex c = true) out.
Proof.
  assert (W : forall l : jsstring,
            Forall (fun c => c = 37%N \/ is_upper_hex c = true) l ->
            Forall (fun c => keep c = true \/ c = 37%N \/ is_upper_hex c = true) l).
  { intros l. apply Forall_impl. tauto. }
  revert out. unfold code_units.
  induction s as [|x|x y s IHs IHy] using list_pair_ind; intros out Hu.
  - simpl. intros [= <-]. constructor.
  - simpl in *. rewrite andb_true_r in Hu. apply N.ltb_lt in Hu.
    destruct (keep x) eqn:K.
    + intros [= <-]. constructor; [now left|constructor].
    + destruct (is_low_surrogate x); [discriminate|].
      destruct (is_high_surrogate x); [discriminate|].
      simpl. intros [= <-]. rewrite app_nil_r. apply W, pct_utf8_hex. lia.
  - cbn [forallb] in Hu. apply andb_true_iff in Hu as [Hx Hys].
    assert (Hs : forallb (fun c => N.ltb c 65536) s = true).
    { cbn [forallb] in Hys. now apply andb_true_iff in Hys as [_ Hys]. }
    apply N.ltb_lt in Hx.
    cbn [Encode]. cbn [Encode] in IHy.
    destruct (keep x) eqn:K.
    + unfold rmap at 1. destruct (if keep y then _ else _) eqn:R; simpl; [|discriminate].
      intros [= <-]. constructor; [now left|]. now apply IHy.
    + destruct (is_low_surrogate x); [discriminate|].
      destruct (is_high_surrogate x) eqn:Hh.
      * destruct (is_low_surrogate y) eqn:Hl; [|discriminate].
        unfold rmap. destruct (Encode keep s) eqn:R; simpl; [|discriminate].
        intros [= <-]. apply Forall_app. split; [|now apply IHs].
        apply W, pct_utf8_hex. now apply surrogate_pair_bound.
      * unfold rmap at 1. destruct (if keep y then _ else _) eqn:R; simpl; [|discriminate].
        intros [= <-]. apply Forall_app. split; [|now apply IHy].
        apply W, pct_utf8_hex. lia.
Qed.

Lemma escape_mark_alphabet (c : code_unit) :
  uriUnescaped c = true \/ c = 37%N \/ is_upper_hex c = true ->
  Forall (fun d => rfc3986_unreserved d = true \/ d = 37%N) (escape_mark c).
Proof.
  intros Hc. unfold escape_mark.
  destruct (mem_str c (js "!'()*")) eqn:M.
  - unfold mem_str in M. simpl existsb in M.
    rewrite !orb_true_iff, !N.eqb_eq in M.
    destruct M as [->|[->|[->|[->|[->|M]]]]]; [| | | | |discriminate M];
      match goal with
      | |- Forall _ (_ :: toString16 ?c) =>
          let v := eval vm_compute in (toString16 c) in
          change (toString16 c) with v
      end;
      repeat (apply Forall_cons; [first [right; reflexivity | left; reflexivity]|]);
      apply Forall_nil.
  - constructor; [|constructor].
    destruct Hc as [Hc|[Hc|Hc]]; [left|now right|left].
    + revert Hc M. unfold uriUnescaped, rfc3986_unreserved, mem_str. simpl existsb.
      destruct (is_alpha c); [reflexivity|]. destruct (is_digit c); [reflexivity|].
      simpl. rewrite !orb_false_r.
      destruct (N.eqb c 45), (N.eqb c 95), (N.eqb c 46), (N.eqb c 33), (N.eqb c 126),
        (N.eqb c 42), (N.eqb c 39), (N.eqb c 40), (N.eqb c 41); simpl; congruence.
    + revert Hc. unfold is_upper_hex, rfc3986_unreserved, is_alpha.
      destruct (is_digit c); [intros _; now rewrite orb_true_r|].
      simpl. rewrite !orb_true_iff, !andb_true_iff, !N.leb_le. lia.
Qed.

(** X7. On a string of code units, what [fixedEncodeURIComponent] returns
    is made of unreserved characters of RFC 3986 (letters, digits, hyphen,
    underscore, dot, tilde) and percent signs only: no separator of a query
    string, no space and none of the five marks is left in a value. *)
Theorem fixedEncodeURIComponent_alphabet (str out : jsstring) :
  code_units str = true ->
  fixedEncodeURIComponent str = Ok out ->
  Forall (fun c => rfc3986_unreserved c = true \/ c = 37%N) out /\
  ~ In 38%N out /\ ~ In 61%N out /\ ~ In 32%N out /\ ~ In 43%N out.
Proof.
  intros Hu E. unfold fixedEncodeURIComponent, encodeURIComponent in E.
  destruct (Encode uriUnescaped str) as [enc|] eqn:Eenc; [|discriminate].
  simpl in E. injection E as <-.
  pose proof (@Encode_alphabet uriUnescaped str enc Hu Eenc) as Ha.
  assert (Hf : Forall (fun c => rfc3986_unreserved c = true \/ c = 37%N)
                 (flat_map escape_mark enc)).
  { clear Eenc. induction Ha as [|c l Hc Hl IH]; cbn [flat_map]; [constructor|].
    apply Forall_app. split; [now apply escape_mark_alphabet|exact IH]. }
  split; [exact Hf|].
  rewrite Forall_forall in Hf.
  repeat split; intros Hin; destruct (Hf _ Hin) as [K|K]; discriminate.
Qed.

(* ================================================================== *)
(** * The normal form of a header value *)
(* ================================================================== *)

Lemma is_space_32 : is_space 32%N = true.
Proof. reflexivity. Qed.

Lemma collapse_from_spaces (b : bool) (s : jsstring) (c : code_unit) :
  In c (collapse_from b s) -> is_space c = true -> c = 32%N.
Proof.
  revert b. induction s as [|x s IH]; intros b; simpl; [contradiction|].
  destruct (is_space x) eqn:E.
  - destruct b; simpl; [apply IH|]. intros [<-|Hin]; [reflexivity|eauto].
  - simpl. intros [<-|Hin]; [congruence|eauto].
Qed.

Lemma collapse_from_single_spaced (s : jsstring) :
  forall b,
    single_spaced (collapse_from b s) = true /\
    starts_nonspace (collapse_from true s) = true.
Proof.
  induction s as [|x s IH]; intros b; [split; reflexivity|].
  destruct (IH true) as [IHt IHs], (IH false) as [IHf _].
  cbn [collapse_from]. destruct (is_space x) eqn:E.
  - split; [|exact IHs]. destruct b; [exact IHt|].
    cbn [single_spaced]. destruct (collapse_from true s) as [|d r] eqn:D; [reflexivity|].
    rewrite IHt. simpl in IHs. apply negb_true_iff in IHs. rewrite IHs.
    now rewrite andb_false_r.
  - split; [|simpl; now rewrite E].
    cbn [single_spaced]. destruct (collapse_from false s) as [|d r] eqn:D; [reflexivity|].
    rewrite IHf, E. reflexivity.
Qed.

Lemma collapse_from_nonempty (b : bool) (s : jsstring) :
  s <> [] -> ends_nonspace s = true -> collapse_from b s <> [].
Proof.
  revert b. induction s as [|x s IH]; intros b Hne He; [congruence|].
  cbn [collapse_from]. destruct (is_space x) eqn:E; [|discriminate].
  assert (Hs : s <> [] /\ ends_nonspace s = true).
  { destruct s; [simpl in He; now rewrite E in He|]. split; [discriminate|exact He]. }
  destruct b; [now apply IH|discriminate].
Qed.

Lemma ends_nonspace_cons (x : code_unit) (t : jsstring) :
  t <> [] -> ends_nonspace (x :: t) = ends_nonspace t.
Proof. destruct t; [congruence|reflexivity]. Qed.

Lemma collapse_from_ends (b : bool) (s : jsstring) :
  ends_nonspace s = true -> ends_nonspace (collapse_from b s) = true.
Proof.
  revert b. induction s as [|x s IH]; intros b He; [reflexivity|].
  destruct s as [|y s'] eqn:S.
  - simpl in *. apply negb_true_iff in He. rewrite He. simpl. now rewrite He.
  - rewrite <- S in *. assert (Hs : s <> []) by (rewrite S; discriminate).
    rewrite ends_nonspace_cons in He by exact Hs.
    cbn [collapse_from]. destruct (is_space x).
    + destruct b; [now apply IH|].
      rewrite ends_nonspace_cons by (now apply collapse_from_nonempty). now apply IH.
    + rewrite ends_nonspace_cons by (now apply collapse_from_nonempty). now apply IH.
Qed.

Lemma dropWhile_id (t : jsstring) : starts_nonspace t = true -> dropWhile is_space t = t.
Proof. destruct t as [|c t]; [reflexivity|]. simpl. now intros ->%negb_true_iff. Qed.

Lemma starts_nonspace_rev (t : jsstring) :
  ends_nonspace t = true -> starts_nonspace (rev t) = true.
Proof.
  destruct (rev t) as [|c r] eqn:E; [reflexivity|].
  apply (f_equal (@rev _)) in E. rewrite rev_involutive in E. subst t.
  simpl. now rewrite ends_nonspace_snoc.
Qed.

Lemma trim_id (t : jsstring) :
  starts_nonspace t = true -> ends_nonspace t = true -> trim t = t.
Proof.
  intros Hs He. unfold trim. rewrite (dropWhile_id _ Hs).
  rewrite dropWhile_id by now apply starts_nonspace_rev. apply rev_involutive.
Qed.

Lemma collapse_from_id (t : jsstring) :
  (forall c, In c t -> is_space c = true -> c = 32%N) ->
  single_spaced t = true ->
  collapse_from false t = t /\
  (starts_nonspace t = true -> collapse_from true t = t).
Proof.
  induction t as [|x t IH]; intros Hsp Hss; [split; reflexivity|].
  assert (Ht : collapse_from false t = t /\
               (starts_nonspace t = true -> collapse_from true t = t)).
  { apply IH; [intros c Hc; apply Hsp; now right|].
    destruct t; [reflexivity|]. cbn [single_spaced] in Hss.
    now apply andb_true_iff in Hss. }
  destruct Ht as [Hf Ht]. cbn [collapse_from starts_nonspace].
  destruct (is_space x) eqn:E.
  - split; [|discriminate].
    rewrite (Hsp x (or_introl eq_refl) E). f_equal. apply Ht.
    destruct t as [|d r]; [reflexivity|]. cbn [single_spaced] in Hss.
    apply andb_true_iff in Hss as [Hss _]. rewrite E in Hss. simpl in *.
    exact Hss.
  - split; [|intros _]; now rewrite Hf.
Qed.

(** X8. The value written into a canonical-header line has no whitespace
    but single spaces between words: it neither starts nor ends with
    whitespace, no two neighbours are whitespace, every whitespace is the
    space U+0020, so it holds no line feed and no carriage return; and
    normalizing it again changes nothing. *)
Theorem header_value_normal_form (v : jsstring) :
  (forall c, In c (collapse_spaces (trim v)) -> is_space c = true -> c = 32%N) /\
  single_spaced (collapse_spaces (trim v)) = true /\
  starts_nonspace (collapse_spaces (trim v)) = true /\
  ends_nonspace (collapse_spaces (trim v)) = true /\
  ~ In 10%N (collapse_spaces (trim v)) /\
  ~ In 13%N (collapse_spaces (trim v)) /\
  collapse_spaces (trim (collapse_spaces (trim v))) = collapse_spaces (trim v).
Proof.
  destruct (trim_split v) as (_ & _ & _ & _ & _ & Hst & Hen).
  unfold collapse_spaces.
  assert (H1 : forall c, In c (collapse_from false (trim v)) -> is_space c = true ->
                         c = 32%N) by (intros c; apply collapse_from_spaces).
  assert (H2 : single_spaced (collapse_from false (trim v)) = true)
    by apply collapse_from_single_spaced.
  assert (H3 : starts_nonspace (collapse_from false (trim v)) = true).
  { rewrite collapse_from_start by exact Hst. apply collapse_from_single_spaced.
    exact false. }
  assert (H4 : ends_nonspace (collapse_from false (trim v)) = true)
    by now apply collapse_from_ends.
  repeat split; try assumption.
  - intros Hin. specialize (H1 _ Hin eq_refl). discriminate.
  - intros Hin. specialize (H1 _ Hin eq_refl). discriminate.
  - rewrite trim_id by assumption. now apply collapse_from_id.
Qed.

(* ================================================================== *)
(** * The two orders of the header names *)
(* ================================================================== *)

Lemma str_le_antisym (a b : jsstring) : str_le a b -> str_le b a -> a = b.
Proof. unfold str_le. intros E F. now apply str_ltb_total. Qed.

(** A list has one sorted arrangement. *)
Lemma sorted_unique (l1 l2 : list jsstring) :
  StronglySorted str_le l1 -> StronglySorted str_le l2 -> Permutation l1 l2 -> l1 = l2.
Proof.
  revert l2. induction l1 as [|a l1 IH]; intros l2 H1 H2 Hp.
  - apply Permutation_nil in Hp. now subst.
  - destruct l2 as [|b l2]; [apply Permutation_sym, Permutation_nil in Hp; discriminate|].
    inversion H1 as [|? ? S1 F1]; subst. inversion H2 as [|? ? S2 F2]; subst.
    rewrite Forall_forall in F1, F2.
    assert (Hab : a = b).
    { assert (Ha : In a (b :: l2)) by (eapply Permutation_in; [exact Hp|now left]).
      assert (Hb : In b (a :: l1))
        by (eapply Permutation_in; [apply Permutation_sym; exact Hp|now left]).
      destruct Ha as [->|Ha]; [reflexivity|]. destruct Hb as [->|Hb]; [reflexivity|].
      apply str_le_antisym; auto. }
    subst b. f_equal. apply IH; try assumption.
    eapply Permutation_cons_inv. exact Hp.
Qed.

Lemma StronglySorted_map {A B} (R : A -> A -> Prop) (R' : B -> B -> Prop) (f : A -> B)
    (l : list A) :
  (forall a b, R a b -> R' (f a) (f b)) ->
  StronglySorted R l -> StronglySorted R' (map f l).
Proof.
  intros HR. induction 1 as [|a l Hs IH Hall]; simpl; constructor; [assumption|].
  rewrite Forall_forall in *. intros y Hy. apply in_map_iff in Hy as (x & <- & Hx). auto.
Qed.

Lemma entry_le_names (a b : jsstring * jsstring) : entry_le a b -> str_le (fst a) (fst b).
Proof.
  intros [[E|[E _]]| ->]; apply str_le_cases; auto.
Qed.

Section HeaderOrders.
Context {H : JsHost}.

(** X9. The canonical-header lines are ordered by the names as stored and
    the signed-headers list by the lower-cased names.  When every name is
    stored in lower case the two orders agree: the list is the names of the
    lines, in the order of the lines.  With a name in upper case they can
    differ: for the headers X-b and a, the line of x-b comes first and the
    list is a;x-b. *)
Theorem header_orders_agree_on_lower_case (Hlow : lowercases_ascii H) (headers : Headers) :
  (forall k, In k (Object_keys headers) -> toLowerCase k = k) ->
  (exists sorted,
     Permutation headers sorted /\
     buildCanonicalHeaders headers = List.concat (map spec_header_line sorted) /\
     buildCanonicalSignedHeaders headers =
       join (js ";") (map (fun e => toLowerCase (fst e)) sorted)) /\
  buildCanonicalHeaders [(js "X-b", js "1"); (js "a", js "2")] =
    js "x-b:1" ++ LF ++ js "a:2" ++ LF /\
  buildCanonicalSignedHeaders [(js "X-b", js "1"); (js "a", js "2")] = js "a;x-b".
Proof.
  intros Hnames. split.
  - exists (Array_sort compare_entries headers).
    pose proof (Array_sort_perm compare_entries headers) as Hp.
    split; [exact Hp|]. split; [apply buildCanonicalHeaders_eq|].
    unfold buildCanonicalSignedHeaders. f_equal.
    assert (E1 : map toLowerCase (Object_keys headers) = Object_keys headers).
    { rewrite <- (map_id (Object_keys headers)) at 2. now apply map_ext_in. }
    assert (E2 : map (fun e => toLowerCase (fst e)) (Array_sort compare_entries headers) =
                 map fst (Array_sort compare_entries headers)).
    { apply map_ext_in. intros e He. apply Hnames. unfold Object_keys.
      apply in_map. eapply Permutation_in; [apply Permutation_sym; exact Hp|exact He]. }
    rewrite E1, E2. apply sorted_unique.
    + apply Sorted_StronglySorted; [intros a b c; apply str_le_trans|].
      apply Array_sort_sorted; [apply default_compare_le|apply default_compare_gt].
    + apply (StronglySorted_map (R := entry_le)); [apply entry_le_names|].
      apply entries_sort_strongly_sorted.
    + rewrite <- (Array_sort_perm default_compare (Object_keys headers)).
      unfold Object_keys. now apply Permutation_map.
  - split.
    + rewrite buildCanonicalHeaders_eq.
      change (Array_sort compare_entries [(js "X-b", js "1"); (js "a", js "2")])
        with [(js "X-b", js "1"); (js "a", js "2")].
      unfold spec_header_line. cbn [map List.concat fst snd].
      rewrite (Hlow (js "X-b")), (Hlow (js "a")) by reflexivity.
      vm_compute. reflexivity.
    + unfold buildCanonicalSignedHeaders. cbn [Object_keys map fst].
      rewrite (Hlow (js "X-b")), (Hlow (js "a")) by reflexivity.
      vm_compute. reflexivity.
Qed.

End HeaderOrders.

Lemma header_orders_agree_on_lower_case_witness :
  lowercases_ascii ascii_host /\
  (forall k, In k (Object_keys [(js "x-amz-date", js "20150830T123600Z");
                                (js "host", js "example.amazonaws.com")]) ->
             @toLowerCase ascii_host k = k) /\
  (exists sorted,
     Permutation [(js "x-amz-date", js "20150830T123600Z");
                  (js "host", js "example.amazonaws.com")] sorted /\
     @buildCanonicalHeaders ascii_host
       [(js "x-amz-date", js "20150830T123600Z");
        (js "host", js "example.amazonaws.com")] =
       List.concat (map (@spec_header_line ascii_host) sorted) /\
     @buildCanonicalSignedHeaders ascii_host
       [(js "x-amz-date", js "20150830T123600Z");
        (js "host", js "example.amazonaws.com")] =
       join (js ";") (map (fun e => @toLowerCase ascii_host (fst e)) sorted)) /\
  @buildCanonicalHeaders ascii_host [(js "X-b", js "1"); (js "a", js "2")] =
    js "x-b:1" ++ LF ++ js "a:2" ++ LF /\
  @buildCanonicalSignedHeaders ascii_host [(js "X-b", js "1"); (js "a", js "2")] =
    js "a;x-b".
Proof.
  assert (Hn : forall k,
             In k (Object_keys [(js "x-amz-date", js "20150830T123600Z");
                                (js "host", js "example.amazonaws.com")]) ->
             @toLowerCase ascii_host k = k).
  { intros k [<-|[<-|[]]]; reflexivity. }
  split; [exact ascii_host_lowercases|]. split; [exact Hn|].
  exact (@header_orders_agree_on_lower_case ascii_host ascii_host_lowercases _ Hn).
Defined.

(* ================================================================== *)
(** * What a failing call leaves behind *)
(* ================================================================== *)

Section Failure.
Context {P : PrimitiveProvider} {H : JsHost}.

(** X10. When validation passed and [url.parse] and [JSON.stringify]
    returned, a throw of the canonical request (the method is not a string,
    a lone surrogate is in the path or in a query value) is the throw of
    [buildSigningParts], and the caller's config is already changed by then:
    its headers hold the date, host and security-token headers but no new
    authorization header, params and serviceName hold their defaults and the
    data is replaced by its serialized text.  With a null method the error
    is a TypeError. *)
Theorem canonicalization_failure_after_mutation config datetime pth host payload :
  assertProps config requiredProps = Ok tt ->
  match passed_date_header (caller_headers config) with
  | Some k => obj_get (caller_headers config) k = Some datetime
  | None => datetime = current_datetime
  end ->
  getPath (endpoint config) (path config) = Ok pth ->
  hostname (endpoint config) = Ok host ->
  match data config with
  | Val v => JSON_stringify v = Ok payload
  | _ => payload = Some []
  end ->
  exists config',
    headers config' = Val (signed_header_set config datetime host) /\
    params config' = Val (caller_params config) /\
    serviceName config' = Val (service_or_default config) /\
    data config' =
      match payload with Some s => Val (string_value s) | None => Undefined end /\
    (forall e,
       buildCanonicalRequest (method config) pth (signed_header_set config datetime host)
         (Val (caller_params config)) payload = Throw e ->
       buildSigningParts config = (Throw e, config') /\
       sign config = (Throw e, config')) /\
    (method config = Null -> buildSigningParts config = (Throw TypeError, config')).
Proof.
  intros Hreq Hdt Hpath Hhost Hdata.
  destruct (assertValue_defaults config)
    as (Fh & Fq & Fsv & Fm & Fe & Fp & Fd & Fr & Fa & Fs & Ft).
  set (c1 := assertValue serviceName with_serviceName (js "execute-api") _) in *.
  assert (Hthe : forall c h, headers c = Val h -> the_headers c = (Ok h, c)).
  { intros c h E. unfold the_headers, attempt. now rewrite E. }
  assert (Hset : forall c h k v, headers c = Val h ->
            set_header k v c = (Ok tt, with_headers (Val (obj_set h k v)) c)).
  { intros c h k v E. unfold set_header. erewrite bind_step by (apply Hthe; exact E).
    reflexivity. }
  set (h1 := match passed_date_header (caller_headers config) with
             | Some _ => caller_headers config
             | None => obj_set (caller_headers config) X_AMZ_DATE datetime
             end).
  set (hs := signed_header_set config datetime host).
  set (d5 := match payload with Some s => Val (string_value s) | None => Undefined end).
  exists (with_data d5 (with_headers (Val hs) c1)).
  cbn [headers params serviceName data with_data with_headers].
  split; [reflexivity|]. split; [exact Fq|]. split; [exact Fsv|]. split; [reflexivity|].
  assert (Hrun : forall e,
    buildCanonicalRequest (method config) pth hs (Val (caller_params config)) payload =
      Throw e ->
    buildSigningParts config = (Throw e, with_data d5 (with_headers (Val hs) c1))).
  { intros e Hcr. unfold buildSigningParts.
    erewrite bind_step by (unfold attempt; rewrite Hreq; reflexivity).
    do 3 (erewrite bind_step by reflexivity).
    fold c1. clearbody c1.
    erewrite bind_step by (erewrite bind_step by (apply Hthe; exact Fh); reflexivity).
    (* the timestamp *)
    assert (Hdate : exists c2,
      match find (fun val => str_eqb (toLowerCase val) X_AMZ_DATE)
              (Object_keys (caller_headers config)) with
      | Some passedDateHeader => get_header passedDateHeader
      | None => bind (set_header X_AMZ_DATE current_datetime)
                  (fun _ => ret current_datetime)
      end c1 = (Ok datetime, c2) /\
      with_headers (Val (obj_set h1 HOST host)) c2 =
        with_headers (Val (obj_set h1 HOST host)) c1 /\
      headers c2 = Val h1 /\ endpoint c2 = endpoint c1 /\ path c2 = path c1).
    { unfold h1, passed_date_header in *.
      destruct (find _ (Object_keys (caller_headers config))) as [k|].
      - exists c1. split; [|repeat split; assumption].
        unfold get_header. erewrite bind_step by (apply Hthe; exact Fh).
        unfold attempt. now rewrite Hdt.
      - subst datetime. eexists. split.
        + erewrite bind_step by (apply Hset; exact Fh). reflexivity.
        + repeat split. }
    destruct Hdate as (c2 & Hdate & Hc2 & Gh & Ge & Gp).
    erewrite bind_step by exact Hdate. clear Hdate.
    erewrite bind_step by (unfold attempt; rewrite Ge, Gp, Fe, Fp, Hpath; reflexivity).
    erewrite bind_step by (unfold attempt; rewrite Ge, Fe, Hhost; reflexivity).
    erewrite bind_step by (apply Hset; exact Gh).
    rewrite Hc2. clear Hc2 Gh Ge Gp c2.
    erewrite bind_step by reflexivity.
    (* the session token *)
    assert (Htok :
      match sessionToken (with_headers (Val (obj_set h1 HOST host)) c1) with
      | Val t => set_header X_AMZ_SECURITY_TOKEN t
      | _ => ret tt
      end (with_headers (Val (obj_set h1 HOST host)) c1) =
      (Ok tt, with_headers (Val hs) c1)).
    { cbn [sessionToken with_headers]. unfold hs, signed_header_set. fold h1.
      rewrite Ft. destruct (sessionToken config) as [| |t].
      - unfold ret. repeat f_equal.
      - unfold ret. repeat f_equal.
      - rewrite (Hset _ (obj_set h1 HOST host)) by reflexivity. reflexivity. }
    erewrite bind_step by exact Htok. clear Htok.
    (* the body *)
    assert (Hser : serialize_data (with_headers (Val hs) c1) =
                   (Ok payload, with_data d5 (with_headers (Val hs) c1))).
    { unfold serialize_data. erewrite bind_step by reflexivity.
      cbn [data with_headers]. rewrite Fd. unfold d5.
      destruct (data config) as [| |v].
      - subst payload. reflexivity.
      - subst payload. reflexivity.
      - erewrite bind_step by (unfold attempt; rewrite Hdata; reflexivity).
        reflexivity. }
    erewrite bind_step by exact Hser. clear Hser.
    unfold bind at 1. unfold attempt at 1.
    cbn [headers params method with_data with_headers rbind].
    rewrite Fq, Fm, Hcr. reflexivity. }
  split.
  - intros e Hcr. split; [now apply Hrun|]. unfold sign, bind. now rewrite (Hrun e Hcr).
  - intros Hm. apply Hrun. rewrite Hm. reflexivity.
Qed.

End Failure.

(* ================================================================== *)
(** * The header mapping a call returns *)
(* ================================================================== *)

Lemma obj_get_set_other (o : object) (k v k' : jsstring) :
  k' <> k -> obj_get (obj_set o k v) k' = obj_get o k'.
Proof.
  intros Hne. induction o as [|[k0 v0] o IH]; simpl.
  - apply str_eqb_neq in Hne. destruct (str_eqb k k') eqn:E; [|reflexivity].
    apply str_eqb_eq in E. apply str_eqb_neq in Hne. congruence.
  - destruct (str_eqb k0 k) eqn:E; simpl.
    + apply str_eqb_eq in E. subst k0.
      destruct (str_eqb k k') eqn:F; [|reflexivity].
      apply str_eqb_eq in F. congruence.
    + now rewrite IH.
Qed.

Lemma obj_set_keys_app (o : object) (k v : jsstring) :
  exists added,
    Object_keys (obj_set o k v) = Object_keys o ++ added /\ incl added [k].
Proof.
  rewrite obj_set_keys. destruct (existsb (str_eqb k) (Object_keys o)).
  - exists []. rewrite app_nil_r. split; [reflexivity|]. intros x [].
  - exists [k]. split; [reflexivity|]. apply incl_refl.
Qed.

Lemma constants_differ :
  HOST <> AUTHORIZATION /\ HOST <> X_AMZ_SECURITY_TOKEN /\ HOST <> X_AMZ_DATE /\
  X_AMZ_SECURITY_TOKEN <> AUTHORIZATION /\ X_AMZ_DATE <> AUTHORIZATION /\
  X_AMZ_DATE <> X_AMZ_SECURITY_TOKEN.
Proof. repeat split; apply str_eqb_neq; reflexivity. Qed.

Section ReturnedHeaders.
Context {P : PrimitiveProvider} {H : JsHost}.

(** The keys of the signed header set: the caller's, then the new ones. *)
Lemma signed_header_set_keys_app config datetime host :
  exists added,
    Object_keys (signed_header_set config datetime host) =
      Object_keys (caller_headers config) ++ added /\
    incl added [X_AMZ_DATE; HOST; X_AMZ_SECURITY_TOKEN].
Proof.
  unfold signed_header_set.
  set (h1 := match passed_date_header (caller_headers config) with
             | Some _ => caller_headers config
             | None => obj_set (caller_headers config) X_AMZ_DATE datetime
             end).
  assert (E1 : exists a1, Object_keys h1 = Object_keys (caller_headers config) ++ a1 /\
                          incl a1 [X_AMZ_DATE]).
  { unfold h1. destruct (passed_date_header (caller_headers config)).
    - exists []. rewrite app_nil_r. split; [reflexivity|]. intros x [].
    - apply obj_set_keys_app. }
  destruct E1 as (a1 & E1 & I1).
  destruct (obj_set_keys_app h1 HOST host) as (a2 & E2 & I2).
  assert (E12 : Object_keys (obj_set h1 HOST host) =
                Object_keys (caller_headers config) ++ (a1 ++ a2)).
  { rewrite E2, E1. now rewrite app_assoc. }
  assert (I12 : incl (a1 ++ a2) [X_AMZ_DATE; HOST; X_AMZ_SECURITY_TOKEN]).
  { intros x Hx. apply in_app_iff in Hx as [Hx|Hx].
    - apply I1 in Hx. destruct Hx as [<-|[]]. simpl. auto.
    - apply I2 in Hx. destruct Hx as [<-|[]]. simpl. auto. }
  destruct (sessionToken config) as [| |t]; [eauto|eauto|].
  destruct (obj_set_keys_app (obj_set h1 HOST host) X_AMZ_SECURITY_TOKEN t)
    as (a3 & E3 & I3).
  exists ((a1 ++ a2) ++ a3). split.
  - rewrite E3, E12. symmetry. apply app_assoc.
  - intros x Hx. apply in_app_iff in Hx as [Hx|Hx]; [now apply I12|].
    apply I3 in Hx. destruct Hx as [<-|[]]. simpl. auto.
Qed.

(** The signed-headers list of a returning call: sorted, written into the
    authorization header, and holding the lower-cased name of every header of
    the signed header set. *)
Lemma signed_list_of_run config parts config' :
  buildSigningParts config = (Ok parts, config') ->
  exists datetime host sorted,
    hostname (endpoint config) = Ok host /\
    parts_headers parts =
      obj_set (signed_header_set config datetime host) AUTHORIZATION (authHeader parts) /\
    StronglySorted str_le sorted /\
    Permutation
      (map toLowerCase (Object_keys (signed_header_set config datetime host))) sorted /\
    authHeader parts =
      js "AWS4-HMAC-SHA256 Credential=" ++ ToString (accessKey config) ++ js "/" ++
      buildCredentialScope datetime (region config) (Val (service_or_default config)) ++
      js ", SignedHeaders=" ++ join (js ";") sorted ++
      js ", Signature=" ++ signature parts.
Proof.
  intros Hrun.
  destruct (buildSigningParts_returns_inv _ Hrun)
    as (datetime & pth & host & payload & _ & _ & _ & Hhost & _ & _ & _ & _ &
        Hauth & Hfinal & _).
  exists datetime, host,
    (Array_sort default_compare
       (map toLowerCase (Object_keys (signed_header_set config datetime host)))).
  split; [exact Hhost|]. split; [exact Hfinal|]. split.
  { apply Sorted_StronglySorted; [intros a b c; apply str_le_trans|].
    apply Array_sort_sorted; [apply default_compare_le|apply default_compare_gt]. }
  split; [apply Array_sort_perm|]. rewrite Hauth. reflexivity.
Qed.

(** X11. Whenever the call returns, the method and the endpoint of the
    config were strings and no required property was undefined: a null
    method or endpoint passes validation but is never signed. *)
Theorem returns_only_for_string_method_and_endpoint config parts config' :
  buildSigningParts config = (Ok parts, config') ->
  (exists m, method config = Val m) /\
  (exists e, endpoint config = Val e) /\
  (forall p, In p requiredProps -> get_prop config p <> Undefined).
Proof.
  intros Hrun.
  destruct (buildSigningParts_returns_inv _ Hrun)
    as (datetime & pth & host & payload & Hreq & _ & _ & Hhost & _ & Hcr & _).
  apply buildCanonicalRequest_Ok_inv in Hcr as (m & uri & qs & Hm & _).
  split; [eauto|]. split.
  - unfold hostname in Hhost. destruct (endpoint config); try discriminate. eauto.
  - now apply assertProps_Ok_iff.
Qed.

Hypothesis Hlow : lowercases_ascii H.

(** X12. The returned header mapping keeps the caller's headers, in their
    order and with their values, and appends the new ones; the only values
    written are those of Host (the host name of the endpoint), of the
    security token (the session token, when there is one) and of
    Authorization; the caller's date header is never overwritten. *)
Theorem caller_headers_are_kept config parts config' :
  buildSigningParts config = (Ok parts, config') ->
  (exists added,
     Object_keys (parts_headers parts) = Object_keys (caller_headers config) ++ added /\
     incl added [X_AMZ_DATE; HOST; X_AMZ_SECURITY_TOKEN; AUTHORIZATION]) /\
  (forall k,
     In k (Object_keys (caller_headers config)) ->
     k <> HOST -> k <> AUTHORIZATION ->
     (k <> X_AMZ_SECURITY_TOKEN \/ is_nullish (sessionToken config) = true) ->
     obj_get (parts_headers parts) k = obj_get (caller_headers config) k) /\
  (exists host,
     hostname (endpoint config) = Ok host /\
     obj_get (parts_headers parts) HOST = Some host) /\
  (forall t, sessionToken config = Val t ->
     obj_get (parts_headers parts) X_AMZ_SECURITY_TOKEN = Some t).
Proof.
  intros Hrun.
  destruct (signed_list_of_run _ Hrun) as (datetime & host & _ & Hhost & Hfinal & _).
  destruct constants_differ as (D1 & D2 & D3 & D4 & D5 & D6).
  split.
  { destruct (signed_header_set_keys_app config datetime host) as (a & Ea & Ia).
    destruct (obj_set_keys_app (signed_header_set config datetime host)
                AUTHORIZATION (authHeader parts)) as (b & Eb & Ib).
    exists (a ++ b). split.
    - rewrite Hfinal, Eb, Ea. symmetry. apply app_assoc.
    - intros x Hx. apply in_app_iff in Hx as [Hx|Hx].
      + apply Ia in Hx. simpl in *. tauto.
      + apply Ib in Hx. destruct Hx as [<-|[]]. simpl. auto. }
  split.
  { intros k Hk Hh Ha Ht. rewrite Hfinal.
    rewrite obj_get_set_other by exact Ha. unfold signed_header_set.
    assert (Hdate : obj_get
              (match passed_date_header (caller_headers config) with
               | Some _ => caller_headers config
               | None => obj_set (caller_headers config) X_AMZ_DATE datetime
               end) k = obj_get (caller_headers config) k).
    { destruct (passed_date_header (caller_headers config)) eqn:E; [reflexivity|].
      apply obj_get_set_other. intros ->.
      unfold passed_date_header in E.
      pose proof (find_none _ _ E _ Hk) as F. simpl in F.
      rewrite (Hlow X_AMZ_DATE) in F by reflexivity. discriminate F. }
    destruct (sessionToken config) as [| |t].
    - rewrite obj_get_set_other by exact Hh. exact Hdate.
    - rewrite obj_get_set_other by exact Hh. exact Hdate.
    - destruct Ht as [Ht|Ht]; [|discriminate].
      rewrite obj_get_set_other by exact Ht.
      rewrite obj_get_set_other by exact Hh. exact Hdate. }
  split.
  { exists host. split; [exact Hhost|]. rewrite Hfinal.
    rewrite obj_get_set_other by exact D1. unfold signed_header_set.
    destruct (sessionToken config) as [| |t].
    - apply obj_get_set_same.
    - apply obj_get_set_same.
    - rewrite obj_get_set_other by exact D2. apply obj_get_set_same. }
  intros t Ht. rewrite Hfinal.
  rewrite obj_get_set_other by exact D4. unfold signed_header_set. rewrite Ht.
  apply obj_get_set_same.
Qed.


(** X14. Every header of the returned mapping other than the authorization
    header just computed is signed: the signed-headers list written into the
    authorization header is sorted and holds the lower-cased name of every
    header of the caller, and host and x-amz-date. *)
Theorem every_header_is_signed config parts config' :
  buildSigningParts config = (Ok parts, config') ->
  exists scope sorted,
    StronglySorted str_le sorted /\
    authHeader parts =
      js "AWS4-HMAC-SHA256 Credential=" ++ ToString (accessKey config) ++ js "/" ++
      scope ++ js ", SignedHeaders=" ++ join (js ";") sorted ++
      js ", Signature=" ++ signature parts /\
    (forall k, In k (Object_keys (caller_headers config)) -> In (toLowerCase k) sorted) /\
    (forall k, In k (Object_keys (parts_headers parts)) ->
               k = AUTHORIZATION \/ In (toLowerCase k) sorted) /\
    In (js "host") sorted /\ In (js "x-amz-date") sorted.
Proof.
  intros Hrun.
  destruct (signed_list_of_run _ Hrun)
    as (datetime & host & sorted & _ & Hfinal & Hs & Hp & Hauth).
  exists (buildCredentialScope datetime (region config) (Val (service_or_default config))),
    sorted.
  assert (Hin : forall k, In k (Object_keys (signed_header_set config datetime host)) ->
                          In (toLowerCase k) sorted).
  { intros k Hk. eapply Permutation_in; [exact Hp|]. now apply in_map. }
  split; [exact Hs|]. split; [exact Hauth|]. split.
  { intros k Hk. apply Hin, signed_header_set_keys. now left. }
  split.
  { intros k Hk. rewrite Hfinal in Hk. apply obj_set_In_keys in Hk as [Hk|Hk]; auto. }
  split.
  { assert (Hh : toLowerCase HOST = js "host") by now rewrite Hlow.
    rewrite <- Hh. apply Hin, signed_header_set_keys. auto. }
  destruct (passed_date_header (caller_headers config)) as [k0|] eqn:E.
  - unfold passed_date_header in E. apply find_some in E as [Hk0 E].
    apply str_eqb_eq in E. change (js "x-amz-date") with X_AMZ_DATE. rewrite <- E.
    apply Hin, signed_header_set_keys. now left.
  - assert (Hd : toLowerCase X_AMZ_DATE = js "x-amz-date") by now rewrite Hlow.
    rewrite <- Hd. apply Hin, signed_header_set_keys. right. left. auto.
Qed.

(** X15. Signing is not idempotent on the config it mutates: when a config
    that a call has returned from is signed again, the authorization header
    of the first call is among the signed headers of the second. *)
Theorem resigning_signs_the_old_authorization config parts config' parts2 config'' :
  buildSigningParts config = (Ok parts, config') ->
  buildSigningParts config' = (Ok parts2, config'') ->
  obj_get (caller_headers config') AUTHORIZATION = Some (authHeader parts) /\
  exists scope sorted,
    authHeader parts2 =
      js "AWS4-HMAC-SHA256 Credential=" ++ ToString (accessKey config') ++ js "/" ++
      scope ++ js ", SignedHeaders=" ++ join (js ";") sorted ++
      js ", Signature=" ++ signature parts2 /\
    In (js "authorization") sorted.
Proof.
  intros Hrun1 Hrun2.
  destruct (buildSigningParts_returns_inv _ Hrun1)
    as (datetime & pth & host & payload & _ & _ & _ & _ & _ & _ & _ & _ & _ &
        Hfinal & Hcfg & _).
  assert (Hc : caller_headers config' = parts_headers parts).
  { unfold caller_headers. now rewrite Hcfg. }
  split.
  { rewrite Hc, Hfinal. apply obj_get_set_same. }
  destruct (signed_list_of_run _ Hrun2)
    as (datetime2 & host2 & sorted & _ & _ & _ & Hp & Hauth).
  exists (buildCredentialScope datetime2 (region config')
            (Val (service_or_default config'))), sorted.
  split; [exact Hauth|].
  assert (Ha : toLowerCase AUTHORIZATION = js "authorization") by now rewrite Hlow.
  rewrite <- Ha. eapply Permutation_in; [exact Hp|]. apply in_map.
  apply signed_header_set_keys. left. rewrite Hc, Hfinal.
  apply obj_set_In_keys. now right.
Qed.

(** X16. Header names are not merged by case: when the caller passes a host
    header under another spelling than Host, the host header of the endpoint
    is added beside it and the signed-headers list holds host twice. *)
Theorem host_header_can_be_doubled config parts config' k :
  buildSigningParts config = (Ok parts, config') ->
  In k (Object_keys (caller_headers config)) ->
  k <> HOST -> toLowerCase k = js "host" ->
  In k (Object_keys (parts_headers parts)) /\
  In HOST (Object_keys (parts_headers parts)) /\
  exists scope sorted,
    authHeader parts =
      js "AWS4-HMAC-SHA256 Credential=" ++ ToString (accessKey config) ++ js "/" ++
      scope ++ js ", SignedHeaders=" ++ join (js ";") sorted ++
      js ", Signature=" ++ signature parts /\
    2 <= count_occ (list_eq_dec N.eq_dec) sorted (js "host").
Proof.
  intros Hrun Hk Hne Hl.
  destruct (signed_list_of_run _ Hrun)
    as (datetime & host & sorted & _ & Hfinal & _ & Hp & Hauth).
  assert (K1 : In k (Object_keys (signed_header_set config datetime host)))
    by (apply signed_header_set_keys; now left).
  assert (K2 : In HOST (Object_keys (signed_header_set config datetime host)))
    by (apply signed_header_set_keys; auto).
  split; [rewrite Hfinal; apply obj_set_In_keys; now left|].
  split; [rewrite Hfinal; apply obj_set_In_keys; now left|].
  exists (buildCredentialScope datetime (region config) (Val (service_or_default config))),
    sorted.
  split; [exact Hauth|].
  rewrite <- (proj1 (Permutation_count_occ (list_eq_dec N.eq_dec)
                (map toLowerCase (Object_keys (signed_header_set config datetime host)))
                sorted) Hp (js "host")).
  assert (Hh : toLowerCase HOST = js "host") by now rewrite Hlow.
  revert K1 K2.
  generalize (Object_keys (signed_header_set config datetime host)) as l.
  induction l as [|x l IH]; intros K1 K2; [destruct K1|].
  cbn [map count_occ].
  destruct (list_eq_dec N.eq_dec (toLowerCase x) (js "host")) as [Ex|Ex].
  - assert (Hone : 1 <= count_occ (list_eq_dec N.eq_dec) (map toLowerCase l) (js "host")).
    { apply count_occ_In.
      destruct K1 as [->|K1], K2 as [E2|K2].
      - congruence.
      - rewrite <- Hh. now apply in_map.
      - rewrite <- Hl. now apply in_map.
      - rewrite <- Hh. now apply in_map. }
    lia.
  - destruct K1 as [->|K1]; [congruence|]. destruct K2 as [->|K2]; [congruence|]. auto.
Qed.

End ReturnedHeaders.

(* ================================================================== *)
(** * The timestamp read from the clock *)
(* ================================================================== *)

Lemma digit_not_punct (d : code_unit) :
  is_digit d = true ->
  (N.eqb d 58 || N.eqb d 45) = false /\ N.eqb d 46 = false.
Proof.
  unfold is_digit. rewrite andb_true_iff, !N.leb_le. intros [? ?].
  split; [apply orb_false_iff; split|]; apply N.eqb_neq; lia.
Qed.

Lemma strip_punct_digit (d : code_unit) (r : jsstring) :
  is_digit d = true -> strip_punct (d :: r) = d :: strip_punct r.
Proof.
  intros Hd. destruct (digit_not_punct _ Hd) as [E1 E2].
  cbn [strip_punct]. now rewrite E1, E2.
Qed.

Lemma strip_punct_keep (c : code_unit) (r : jsstring) :
  (N.eqb c 58 || N.eqb c 45) = false -> N.eqb c 46 = false ->
  strip_punct (c :: r) = c :: strip_punct r.
Proof. intros E1 E2. cbn [strip_punct]. now rewrite E1, E2. Qed.

Lemma strip_punct_drop (c : code_unit) (r : jsstring) :
  (N.eqb c 58 || N.eqb c 45) = true -> strip_punct (c :: r) = strip_punct r.
Proof. intros E. cbn [strip_punct]. now rewrite E. Qed.

Section Clock.
Context {H : JsHost}.

(** X17. When the clock reads an instant in the form
    YYYY-MM-DDTHH:MM:SS.mmmZ, the timestamp is the compact form
    YYYYMMDDTHHMMSSZ of the same instant: sixteen characters, without
    punctuation and milliseconds, whose first eight are the date of the
    credential scope. *)
Theorem clock_timestamp_is_compact (Y Mo D h mi s f : jsstring) :
  List.length Y = 4 -> List.length Mo = 2 -> List.length D = 2 ->
  List.length h = 2 -> List.length mi = 2 -> List.length s = 2 ->
  List.length f = 3 ->
  forallb is_digit (Y ++ Mo ++ D ++ h ++ mi ++ s ++ f) = true ->
  Date_now_toISOString = iso_instant Y Mo D h mi s f ->
  current_datetime = compact_instant Y Mo D h mi s /\
  List.length current_datetime = 16 /\
  firstn 8 current_datetime = Y ++ Mo ++ D.
Proof.
  intros LY LMo LD Lh Lmi Ls Lf Hd Hiso.
  destruct Y as [|y1 [|y2 [|y3 [|y4 [|? ?]]]]]; try discriminate LY.
  destruct Mo as [|o1 [|o2 [|? ?]]]; try discriminate LMo.
  destruct D as [|d1 [|d2 [|? ?]]]; try discriminate LD.
  destruct h as [|h1 [|h2 [|? ?]]]; try discriminate Lh.
  destruct mi as [|i1 [|i2 [|? ?]]]; try discriminate Lmi.
  destruct s as [|s1 [|s2 [|? ?]]]; try discriminate Ls.
  destruct f as [|f1 [|f2 [|f3 [|? ?]]]]; try discriminate Lf.
  cbn [app forallb] in Hd. rewrite !andb_true_iff in Hd.
  destruct Hd as (Hy1 & Hy2 & Hy3 & Hy4 & Ho1 & Ho2 & Hd1 & Hd2 & Hh1 & Hh2 &
                  Hi1 & Hi2 & Hs1 & Hs2 & Hf1 & Hf2 & Hf3 & _).
  assert (E : current_datetime =
              compact_instant [y1; y2; y3; y4] [o1; o2] [d1; d2] [h1; h2] [i1; i2]
                [s1; s2]).
  { unfold current_datetime. rewrite Hiso. unfold iso_instant, compact_instant.
    change (js "-") with [45%N]. change (js "T") with [84%N].
    change (js ":") with [58%N]. change (js ".") with [46%N].
    change (js "Z") with [90%N]. cbn [app].
    unfold strip_millis. cbn [List.length Nat.sub skipn firstn app].
    rewrite Hf1, Hf2, Hf3.
    change (N.eqb 46 46) with true. change (N.eqb 90 90) with true. cbn [andb].
    repeat first
      [ rewrite strip_punct_digit by assumption
      | rewrite strip_punct_drop by reflexivity
      | rewrite strip_punct_keep by reflexivity ].
    reflexivity. }
  rewrite E. repeat split.
Qed.

End Clock.

(* ================================================================== *)
(** * The further properties on concrete requests *)
(* ================================================================== *)

Lemma fixedEncodeURIComponent_alphabet_witness :
  code_units (js "a b&c=d!") = true /\
  fixedEncodeURIComponent (js "a b&c=d!") = Ok (js "a%20b%26c%3Dd%21") /\
  Forall (fun c => rfc3986_unreserved c = true \/ c = 37%N) (js "a%20b%26c%3Dd%21") /\
  ~ In 38%N (js "a%20b%26c%3Dd%21") /\ ~ In 61%N (js "a%20b%26c%3Dd%21") /\
  ~ In 32%N (js "a%20b%26c%3Dd%21") /\ ~ In 43%N (js "a%20b%26c%3Dd%21").
Proof.
  assert (E : fixedEncodeURIComponent (js "a b&c=d!") = Ok (js "a%20b%26c%3Dd%21"))
    by (vm_compute; reflexivity).
  split; [reflexivity|]. split; [exact E|].
  exact (@fixedEncodeURIComponent_alphabet (js "a b&c=d!") (js "a%20b%26c%3Dd%21")
           eq_refl E).
Defined.

Lemma canonicalization_failure_after_mutation_witness :
  assertProps null_method_config requiredProps = Ok tt /\
  @passed_date_header ascii_host (caller_headers null_method_config) = None /\
  @getPath ascii_host (endpoint null_method_config) (path null_method_config) =
    Ok (Val (js "/v1/items")) /\
  @hostname ascii_host (endpoint null_method_config) = Ok (js "api.example.com") /\
  data null_method_config = Undefined /\
  exists config',
    headers config' =
      Val (signed_header_set null_method_config (@current_datetime ascii_host)
             (js "api.example.com")) /\
    params config' = Val (caller_params null_method_config) /\
    serviceName config' = Val (service_or_default null_method_config) /\
    data config' = Val (@string_value ascii_host []) /\
    (forall e,
       @buildCanonicalRequest checksum_provider ascii_host (method null_method_config)
         (Val (js "/v1/items"))
         (signed_header_set null_method_config (@current_datetime ascii_host)
            (js "api.example.com"))
         (Val (caller_params null_method_config)) (Some []) = Throw e ->
       @buildSigningParts checksum_provider ascii_host null_method_config =
         (Throw e, config') /\
       @sign checksum_provider ascii_host null_method_config = (Throw e, config')) /\
    (method null_method_config = Null ->
     @buildSigningParts checksum_provider ascii_host null_method_config =
       (Throw TypeError, config')).
Proof.
  do 5 (split; [reflexivity|]).
  exact (@canonicalization_failure_after_mutation checksum_provider ascii_host
           null_method_config (@current_datetime ascii_host) (Val (js "/v1/items"))
           (js "api.example.com") (Some []) eq_refl eq_refl eq_refl eq_refl eq_refl).
Defined.

(** The null method: the throw, and the headers it leaves in the config. *)
Lemma null_method_run :
  exists config',
    @buildSigningParts checksum_provider ascii_host null_method_config =
      (Throw TypeError, config') /\
    headers config' =
      Val [(js "Accept", js "text/plain"); (js "x-amz-date", js "20150830T123600Z");
           (js "Host", js "api.example.com"); (js "x-amz-security-token", js "TOKEN")].
Proof. eexists. split; vm_compute; reflexivity. Qed.

Lemma returns_only_for_string_method_and_endpoint_witness :
  exists parts config',
    @buildSigningParts checksum_provider ascii_host vanilla_config = (Ok parts, config') /\
    (exists m, method vanilla_config = Val m) /\
    (exists e, endpoint vanilla_config = Val e) /\
    (forall p, In p requiredProps -> get_prop vanilla_config p <> Undefined).
Proof.
  destruct (vanilla_returns checksum_provider) as (parts & c & E).
  exists parts, c. split; [exact E|].
  exact (@returns_only_for_string_method_and_endpoint checksum_provider ascii_host
           vanilla_config parts c E).
Defined.

Lemma caller_headers_are_kept_witness :
  lowercases_ascii ascii_host /\
  exists parts config',
    @buildSigningParts checksum_provider ascii_host stale_token_config =
      (Ok parts, config') /\
    (exists added,
       Object_keys (parts_headers parts) =
         Object_keys (caller_headers stale_token_config) ++ added /\
       incl added [X_AMZ_DATE; HOST; X_AMZ_SECURITY_TOKEN; AUTHORIZATION]) /\
    (forall k,
       In k (Object_keys (caller_headers stale_token_config)) ->
       k <> HOST -> k <> AUTHORIZATION ->
       (k <> X_AMZ_SECURITY_TOKEN \/ is_nullish (sessionToken stale_token_config) = true) ->
       obj_get (parts_headers parts) k = obj_get (caller_headers stale_token_config) k) /\
    (exists host,
       @hostname ascii_host (endpoint stale_token_config) = Ok host /\
       obj_get (parts_headers parts) HOST = Some host) /\
    (forall t, sessionToken stale_token_config = Val t ->
       obj_get (parts_headers parts) X_AMZ_SECURITY_TOKEN = Some t).
Proof.
  split; [exact ascii_host_lowercases|].
  destruct (stale_token_any_provider checksum_provider) as (parts & c & E & _).
  exists parts, c. split; [exact E|].
  exact (@caller_headers_are_kept checksum_provider ascii_host ascii_host_lowercases
           stale_token_config parts c E).
Defined.


Lemma every_header_is_signed_witness :
  lowercases_ascii ascii_host /\
  exists parts config',
    @buildSigningParts checksum_provider ascii_host vanilla_config = (Ok parts, config') /\
    exists scope sorted,
      StronglySorted str_le sorted /\
      authHeader parts =
        js "AWS4-HMAC-SHA256 Credential=" ++ ToString (accessKey vanilla_config) ++
        js "/" ++ scope ++ js ", SignedHeaders=" ++ join (js ";") sorted ++
        js ", Signature=" ++ signature parts /\
      (forall k, In k (Object_keys (caller_headers vanilla_config)) ->
                 In (@toLowerCase ascii_host k) sorted) /\
      (forall k, In k (Object_keys (parts_headers parts)) ->
                 k = AUTHORIZATION \/ In (@toLowerCase ascii_host k) sorted) /\
      In (js "host") sorted /\ In (js "x-amz-date") sorted.
Proof.
  split; [exact ascii_host_lowercases|].
  destruct (vanilla_returns checksum_provider) as (parts & c & E).
  exists parts, c. split; [exact E|].
  exact (@every_header_is_signed checksum_provider ascii_host ascii_host_lowercases
           vanilla_config parts c E).
Defined.

Lemma resigning_signs_the_old_authorization_witness :
  lowercases_ascii ascii_host /\
  exists parts config' parts2 config'',
    @buildSigningParts checksum_provider ascii_host vanilla_config = (Ok parts, config') /\
    @buildSigningParts checksum_provider ascii_host config' = (Ok parts2, config'') /\
    obj_get (caller_headers config') AUTHORIZATION = Some (authHeader parts) /\
    exists scope sorted,
      authHeader parts2 =
        js "AWS4-HMAC-SHA256 Credential=" ++ ToString (accessKey config') ++ js "/" ++
        scope ++ js ", SignedHeaders=" ++ join (js ";") sorted ++
        js ", Signature=" ++ signature parts2 /\
      In (js "authorization") sorted.
Proof.
  split; [exact ascii_host_lowercases|].
  destruct (@buildSigningParts checksum_provider ascii_host vanilla_config)
    as [[parts|e] c'] eqn:E1; [|exfalso; vm_compute in E1; discriminate E1].
  destruct (@buildSigningParts checksum_provider ascii_host c')
    as [[parts2|e] c''] eqn:E2.
  - exists parts, c', parts2, c''. split; [reflexivity|]. split; [exact E2|].
    exact (@resigning_signs_the_old_authorization checksum_provider ascii_host
             ascii_host_lowercases vanilla_config parts c' parts2 c'' E1 E2).
  - exfalso. vm_compute in E1. injection E1 as <- <-.
    vm_compute in E2. discriminate E2.
Defined.

(** The second signature of the get-vanilla request covers three headers. *)
Lemma resigned_vanilla_signed_headers :
  exists parts config' parts2 config'',
    @buildSigningParts checksum_provider ascii_host vanilla_config = (Ok parts, config') /\
    @buildSigningParts checksum_provider ascii_host config' = (Ok parts2, config'') /\
    @buildCanonicalSignedHeaders ascii_host (caller_headers config') =
      js "authorization;host;x-amz-date".
Proof.
  destruct (@buildSigningParts checksum_provider ascii_host vanilla_config)
    as [[parts|e] c'] eqn:E1; [|exfalso; vm_compute in E1; discriminate E1].
  destruct (@buildSigningParts checksum_provider ascii_host c')
    as [[parts2|e] c''] eqn:E2.
  - exists parts, c', parts2, c''. split; [reflexivity|]. split; [exact E2|].
    vm_compute in E1. injection E1 as <- <-. vm_compute. reflexivity.
  - exfalso. vm_compute in E1. injection E1 as <- <-.
    vm_compute in E2. discriminate E2.
Qed.

Lemma lower_host_returns :
  exists parts config',
    @buildSigningParts checksum_provider ascii_host lower_host_config = (Ok parts, config').
Proof.
  destruct (@buildSigningParts checksum_provider ascii_host lower_host_config)
    as [[parts|e] c] eqn:E; [eauto|]. exfalso. vm_compute in E. discriminate E.
Qed.

Lemma host_header_can_be_doubled_witness :
  lowercases_ascii ascii_host /\
  In (js "host") (Object_keys (caller_headers lower_host_config)) /\
  js "host" <> HOST /\
  @toLowerCase ascii_host (js "host") = js "host" /\
  exists parts config',
    @buildSigningParts checksum_provider ascii_host lower_host_config =
      (Ok parts, config') /\
    In (js "host") (Object_keys (parts_headers parts)) /\
    In HOST (Object_keys (parts_headers parts)) /\
    exists scope sorted,
      authHeader parts =
        js "AWS4-HMAC-SHA256 Credential=" ++ ToString (accessKey lower_host_config) ++
        js "/" ++ scope ++ js ", SignedHeaders=" ++ join (js ";") sorted ++
        js ", Signature=" ++ signature parts /\
      2 <= count_occ (list_eq_dec N.eq_dec) sorted (js "host").
Proof.
  assert (Hin : In (js "host") (Object_keys (caller_headers lower_host_config)))
    by (simpl; auto).
  assert (Hne : js "host" <> HOST) by (apply str_eqb_neq; reflexivity).
  split; [exact ascii_host_lowercases|]. split; [exact Hin|]. split; [exact Hne|].
  split; [reflexivity|].
  destruct lower_host_returns as (parts & c & E).
  exists parts, c. split; [exact E|].
  exact (@host_header_can_be_doubled checksum_provider ascii_host ascii_host_lowercases
           lower_host_config parts c (js "host") E Hin Hne eq_refl).
Defined.

Lemma clock_timestamp_is_compact_witness :
  List.length (js "2015") = 4 /\ List.length (js "08") = 2 /\
  List.length (js "30") = 2 /\ List.length (js "12") = 2 /\
  List.length (js "36") = 2 /\ List.length (js "00") = 2 /\
  List.length (js "000") = 3 /\
  forallb is_digit (js "2015" ++ js "08" ++ js "30" ++ js "12" ++ js "36" ++ js "00" ++
                    js "000") = true /\
  @Date_now_toISOString ascii_host =
    iso_instant (js "2015") (js "08") (js "30") (js "12") (js "36") (js "00") (js "000") /\
  @current_datetime ascii_host =
    compact_instant (js "2015") (js "08") (js "30") (js "12") (js "36") (js "00") /\
  List.length (@current_datetime ascii_host) = 16 /\
  firstn 8 (@current_datetime ascii_host) = js "2015" ++ js "08" ++ js "30".
Proof.
  do 9 (split; [reflexivity|]).
  exact (@clock_timestamp_is_compact ascii_host (js "2015") (js "08") (js "30")
           (js "12") (js "36") (js "00") (js "000")
           eq_refl eq_refl eq_refl eq_refl eq_refl eq_refl eq_refl eq_refl eq_refl).
Defined.
